(** * Offline-AI-Learning: the service-worker caching layer

    A shallow embedding of the three service workers of the repository
    (v1 and v3 in the unnamed sources, v2 in [sw.js]) and of the browser
    interfaces they call: Cache Storage, [fetch], [respondWith] and
    [localStorage].

    Promises are embedded by the state they leave once every chain started
    by a handler has settled: a handler is a function from the world before
    the event to a result and the world after it.  A rejected promise is an
    explicit [Rejected] result, [undefined] is [None]. *)

From Stdlib Require Import String Ascii List Bool.
From stdpp Require Import gmap strings list fin_maps.

Local Open Scope string_scope.
Local Open Scope list_scope.

(** ** The platform: requests, responses, Cache Storage, network *)

Module Platform.

(** A parsed URL, as [new URL(request.url)] yields it.  [protocol] keeps
    the trailing colon as in JavaScript; [href] is the serialisation that
    [request.url] holds. *)
Record URL := mkURL { scheme : string; hostname : string; path : string }.

Definition protocol (u : URL) : string := scheme u +:+ ":".
Definition href (u : URL) : string :=
  protocol u +:+ "//" +:+ hostname u +:+ path u.

(** [accept] is [request.headers.get('accept')]: [None] is JavaScript's
    [null].  [payload] is the body a request is sent with. *)
Record Request := mkRequest
  { method : string; url : URL; accept : option string;
    payload : option string }.

Definition request_url (r : Request) : string := href (url r).

Record Response := mkResponse { ok : bool; body : string }.

(** [s.startsWith(p)] and [s.includes(p)]. *)
Definition startsWith (s p : string) : bool := String.prefix p s.

Fixpoint includes (s p : string) : bool :=
  String.prefix p s ||
  match s with
  | EmptyString => false
  | String _ s' => includes s' p
  end.

(** A cache maps the URL of a request to the stored response: the
    handlers only look up and store GET requests, which the platform
    matches by URL (no response here carries a [Vary] header, and a
    [cache.put] of a fetched response is taken to succeed).  Cache
    Storage keeps its caches in creation order, which is the order
    [caches.keys()] lists them in and [caches.match] searches them in. *)
Definition CacheStorage : Type := list (string * gmap string Response).

Definition caches_keys (cs : CacheStorage) : list string := map fst cs.

Definition caches_has (name : string) (cs : CacheStorage) : bool :=
  existsb (String.eqb name) (caches_keys cs).

Fixpoint caches_match (cs : CacheStorage) (k : string) : option Response :=
  match cs with
  | [] => None
  | (_, c) :: cs' =>
      match c !! k with
      | Some r => Some r
      | None => caches_match cs' k
      end
  end.

(** [caches.open(name)] creates the cache when it does not exist yet. *)
Definition caches_open (name : string) (cs : CacheStorage) : CacheStorage :=
  if caches_has name cs then cs else cs ++ [(name, ∅)].

(** [cache.put(request, response)] on the cache called [name]. *)
Definition cache_put (name k : string) (r : Response) (cs : CacheStorage)
  : CacheStorage :=
  map (λ nc, if String.eqb (fst nc) name
             then (fst nc, <[k:=r]> (snd nc)) else nc) cs.

Definition caches_delete (name : string) (cs : CacheStorage) : CacheStorage :=
  List.filter (λ nc, negb (String.eqb (fst nc) name)) cs.

(** What the handlers cannot see into: the network ([None] is a rejected
    [fetch]) and the resolution of a URL string against the location of
    the worker. *)
Record Env := mkEnv
  { network : Request → option Response;
    resolve : string → URL }.

(** The request [fetch(s)], [cache.addAll([s])] and [caches.match(s)]
    build from a string. *)
Definition Request_of (env : Env) (s : string) : Request :=
  {| method := "GET"; url := resolve env s; accept := None;
     payload := None |}.

(** The world a handler runs in: Cache Storage and the log of the
    requests sent to the network. *)
Record World := mkWorld { caches : CacheStorage; netlog : list Request }.

Definition SW (A : Type) : Type := World → A * World.

#[global] Instance SW_ret : MRet SW := λ A a w, (a, w).
#[global] Instance SW_bind : MBind SW :=
  λ A B f m w, let (a, w') := m w in f a w'.

Definition fetch (env : Env) (r : Request) : SW (option Response) :=
  λ w, (network env r,
        {| caches := caches w; netlog := netlog w ++ [r] |}).

Definition on_caches (f : CacheStorage → CacheStorage) : SW unit :=
  λ w, (tt, {| caches := f (caches w); netlog := netlog w |}).

Definition match_request (r : Request) : SW (option Response) :=
  λ w, (caches_match (caches w) (request_url r), w).

Definition match_url (env : Env) (s : string) : SW (option Response) :=
  match_request (Request_of env s).

(** [caches.open(name).then((cache) => cache.put(request, response))] *)
Definition open_then_put (name : string) (r : Request) (resp : Response)
  : SW unit :=
  on_caches (caches_open name) ;;
  on_caches (cache_put name (request_url r) resp).

(** What [event.respondWith] was given: a promise fulfilled with a
    response or with [undefined], or a rejected promise. *)
Inductive Settled :=
| Fulfilled (v : option Response)
| Rejected.

(** [cache.addAll(urls)]: every URL is fetched; the responses are stored
    only if every fetch succeeded with an ok response, otherwise the
    promise rejects ([false]) and the cache is left as it was. *)
Fixpoint fetch_all (env : Env) (rs : list Request)
  : SW (list (Request * option Response)) :=
  match rs with
  | [] => mret []
  | r :: rs' =>
      x ← fetch env r;
      xs ← fetch_all env rs';
      mret ((r, x) :: xs)
  end.

Definition fetched_ok (x : Request * option Response) : bool :=
  match snd x with
  | Some resp => ok resp
  | None => false
  end.

Fixpoint put_all (name : string) (xs : list (Request * option Response))
  : SW unit :=
  match xs with
  | [] => mret tt
  | (r, Some resp) :: xs' =>
      on_caches (cache_put name (request_url r) resp) ;; put_all name xs'
  | (_, None) :: xs' => put_all name xs'
  end.

Definition cache_addAll (env : Env) (name : string) (urls : list string)
  : SW bool :=
  xs ← fetch_all env (map (Request_of env) urls);
  if forallb fetched_ok xs
  then put_all name xs ;; mret true
  else mret false.

End Platform.

Import Platform.

(** ** v3: one cache, cache first, [index.html] as the fallback *)

Module V3.

Definition CACHE_NAME := "ai-learning-v3".

Definition STATIC_ASSETS := ["./"; "./index.html"; "./manifest.json"].

Definition install (env : Env) : SW bool :=
  on_caches (caches_open CACHE_NAME) ;;
  cache_addAll env CACHE_NAME STATIC_ASSETS.

Definition stale (name : string) : bool := negb (String.eqb name CACHE_NAME).

Definition activate (cs : CacheStorage) : CacheStorage :=
  fold_left (λ acc name, caches_delete name acc)
            (List.filter stale (caches_keys cs)) cs.

Definition fetch_handler (env : Env) (request : Request)
  : SW (option Settled) :=
  if negb (String.eqb (method request) "GET") then mret None
  else if negb (startsWith (request_url request) "http") then mret None
  else
    cachedResponse ← match_request request;
    match cachedResponse with
    | Some cached => mret (Some (Fulfilled (Some cached)))
    | None =>
        fetched ← fetch env request;
        match fetched with
        | Some response =>
            (if ok response
             then open_then_put CACHE_NAME request response
             else mret tt) ;;
            mret (Some (Fulfilled (Some response)))
        | None =>
            fallback ← match_url env "./index.html";
            mret (Some (Fulfilled fallback))
        end
    end.

End V3.

(** ** v2 ([sw.js]): two caches, a cache-first CDN branch, and a local
    branch that refreshes a cached entry in the background *)

Module V2.

Definition CACHE_NAME := "ai-learning-v2".
Definition STLITE_CACHE := "stlite-cache-v1".

Definition STATIC_ASSETS :=
  ["/"; "/index.html"; "/manifest.json"; "/static/styles.css";
   "/static/icons/icon-192.svg"; "/static/icons/icon-512.svg"].

Definition STLITE_RESOURCES :=
  ["https://cdn.jsdelivr.net/npm/@stlite/mountable@0.42.3/build/stlite.js"].

(** [Promise.all] runs both branches to their end and fulfils only if
    both do. *)
Definition install (env : Env) : SW bool :=
  a ← (on_caches (caches_open CACHE_NAME) ;;
       cache_addAll env CACHE_NAME STATIC_ASSETS);
  b ← (on_caches (caches_open STLITE_CACHE) ;;
       cache_addAll env STLITE_CACHE STLITE_RESOURCES);
  mret (a && b).

Definition stale (name : string) : bool :=
  negb (startsWith name "ai-learning") && negb (startsWith name "stlite").

Definition activate (cs : CacheStorage) : CacheStorage :=
  fold_left (λ acc name, caches_delete name acc)
            (List.filter stale (caches_keys cs)) cs.

Definition is_cdn (u : URL) : bool :=
  includes (hostname u) "jsdelivr" ||
  includes (hostname u) "pypi" ||
  includes (hostname u) "pyodide".

Definition fetch_handler (env : Env) (request : Request)
  : SW (option Settled) :=
  let url := url request in
  if negb (String.eqb (method request) "GET") then mret None
  else if negb (startsWith (protocol url) "http") then mret None
  else if is_cdn url then
    cached ← match_request request;
    match cached with
    | Some c => mret (Some (Fulfilled (Some c)))
    | None =>
        fetched ← fetch env request;
        match fetched with
        | Some response =>
            (if ok response
             then open_then_put STLITE_CACHE request response
             else mret tt) ;;
            mret (Some (Fulfilled (Some response)))
        | None => mret (Some Rejected)
        end
    end
  else
    cachedResponse ← match_request request;
    match cachedResponse with
    | Some c =>
        fresh ← fetch env request;
        match fresh with
        | Some response =>
            if ok response
            then open_then_put CACHE_NAME request response
            else mret tt
        | None => mret tt
        end ;;
        mret (Some (Fulfilled (Some c)))
    | None =>
        fetched ← fetch env request;
        match fetched with
        | Some response =>
            (if ok response
             then open_then_put CACHE_NAME request response
             else mret tt) ;;
            mret (Some (Fulfilled (Some response)))
        | None =>
            match accept request with
            | Some a =>
                if includes a "text/html"
                then fallback ← match_url env "/index.html";
                     mret (Some (Fulfilled fallback))
                else mret (Some (Fulfilled None))
            | None => mret (Some (Fulfilled None))
            end
        end
    end.

End V2.

(** ** v1: a static and a dynamic cache, background refresh, the
    background-sync stub *)

Module V1.

Definition CACHE_NAME := "ai-learning-v1".
Definition STATIC_CACHE := "static-v1".
Definition DYNAMIC_CACHE := "dynamic-v1".

Definition STATIC_ASSETS := ["/"; "/static/styles.css"; "/manifest.json"].

Definition install (env : Env) : SW bool :=
  on_caches (caches_open STATIC_CACHE) ;;
  cache_addAll env STATIC_CACHE STATIC_ASSETS.

Definition stale (name : string) : bool :=
  negb (String.eqb name STATIC_CACHE) && negb (String.eqb name DYNAMIC_CACHE).

Definition activate (cs : CacheStorage) : CacheStorage :=
  fold_left (λ acc name, caches_delete name acc)
            (List.filter stale (caches_keys cs)) cs.

(** The [try]/[catch] of [updateCache] turns a rejected [fetch] into a
    log line. *)
Definition updateCache (env : Env) (request : Request) : SW unit :=
  fetched ← fetch env request;
  match fetched with
  | Some response =>
      if ok response
      then open_then_put DYNAMIC_CACHE request response
      else mret tt
  | None => mret tt
  end.

(** In the [catch] of the miss branch [request.headers.get('accept')] is
    dereferenced as it comes: on [null] the callback throws and the
    promise handed to [respondWith] rejects. *)
Definition fetch_handler (env : Env) (request : Request)
  : SW (option Settled) :=
  let url := url request in
  if negb (String.eqb (method request) "GET") then mret None
  else if negb (startsWith (protocol url) "http") then mret None
  else
    cachedResponse ← match_request request;
    match cachedResponse with
    | Some c =>
        updateCache env request ;;
        mret (Some (Fulfilled (Some c)))
    | None =>
        fetched ← fetch env request;
        match fetched with
        | Some response =>
            (if ok response
             then open_then_put DYNAMIC_CACHE request response
             else mret tt) ;;
            mret (Some (Fulfilled (Some response)))
        | None =>
            match accept request with
            | Some a =>
                if includes a "text/html"
                then fallback ← match_url env "/offline.html";
                     mret (Some (Fulfilled fallback))
                else mret (Some (Fulfilled None))
            | None => mret (Some Rejected)
            end
        end
    end.

(** *** Background sync

    The worker only tests the parsed queue for truth and for a positive
    [length] and serialises it again, so JSON values stay abstract.
    [localStorage] is [None] where the global is not defined: reading it
    throws. *)
Section Sync.

Variable JSON : Type.
Variable JSON_parse : string → option JSON.
Variable JSON_stringify : JSON → string.
Variable truthy : JSON → bool.
Variable length_gt_0 : JSON → bool.

Definition Storage : Type := option (gmap string string).

(** [localStorage.getItem(k) || '[]'] *)
Definition getItem_or (st : gmap string string) (k dflt : string) : string :=
  match st !! k with
  | Some s => if String.eqb s "" then dflt else s
  | None => dflt
  end.

Definition getSyncQueue (ls : Storage) : option JSON :=
  match ls with
  | Some st => JSON_parse (getItem_or st "syncQueue" "[]")
  | None => None
  end.

Definition clearSyncQueue (ls : Storage) : option Storage :=
  match ls with
  | Some st => Some (Some (<["syncQueue" := "[]"]> st))
  | None => None
  end.

Definition sync_request (env : Env) (syncData : JSON) : Request :=
  {| method := "POST"; url := resolve env "/api/sync"; accept := None;
     payload := Some (JSON_stringify syncData) |}.

Definition syncProgress (env : Env) (ls : Storage) : SW Storage :=
  match getSyncQueue ls with
  | Some syncData =>
      if truthy syncData && length_gt_0 syncData then
        posted ← fetch env (sync_request env syncData);
        match posted with
        | Some _ =>
            match clearSyncQueue ls with
            | Some ls' => mret ls'
            | None => mret ls
            end
        | None => mret ls
        end
      else mret ls
  | None => mret ls
  end.

Definition sync_handler (env : Env) (tag : string) (ls : Storage)
  : SW Storage :=
  if String.eqb tag "sync-progress" then syncProgress env ls else mret ls.

End Sync.

End V1.

(** ** The three workers side by side *)

Inductive Variant := v1 | v2 | v3.

Definition fetch_handler (v : Variant) : Env → Request → SW (option Settled) :=
  match v with
  | v1 => V1.fetch_handler
  | v2 => V2.fetch_handler
  | v3 => V3.fetch_handler
  end.

Definition activate (v : Variant) : CacheStorage → CacheStorage :=
  match v with
  | v1 => V1.activate
  | v2 => V2.activate
  | v3 => V3.activate
  end.

(** The test each worker applies before it calls [respondWith]. *)
Definition intercepts (v : Variant) (request : Request) : bool :=
  String.eqb (method request) "GET" &&
  match v with
  | v3 => startsWith (request_url request) "http"
  | _ => startsWith (protocol (url request)) "http"
  end.

(** The branch of v2 that serves CDN hosts; v1 and v3 have none. *)
Definition cdn_branch (v : Variant) (request : Request) : bool :=
  match v with
  | v2 => V2.is_cdn (url request)
  | _ => false
  end.

(** The cache a worker writes a fetched response to. *)
Definition write_cache (v : Variant) (request : Request) : string :=
  match v with
  | v1 => V1.DYNAMIC_CACHE
  | v2 => if V2.is_cdn (url request) then V2.STLITE_CACHE else V2.CACHE_NAME
  | v3 => V3.CACHE_NAME
  end.

(** The page a worker falls back to when cache and network both fail. *)
Definition fallback_page (v : Variant) : string :=
  match v with
  | v1 => "/offline.html"
  | v2 => "/index.html"
  | v3 => "./index.html"
  end.

(** An entry of Cache Storage: response [r] stored under [k] in a cache
    called [name]. *)
Definition entry (cs : CacheStorage) (name k : string) (r : Response) : Prop :=
  ∃ c, In (name, c) cs ∧ c !! k = Some r.

Definition has_cache (cs : CacheStorage) (name : string) : Prop :=
  ∃ c, In (name, c) cs.

(** The workers that refresh a cached entry from the network while they
    answer from the cache: [updateCache] in v1, the background [fetch] of
    the local branch in v2. *)
Definition refreshes (v : Variant) (request : Request) : bool :=
  match v with
  | v1 => true
  | v2 => negb (V2.is_cdn (url request))
  | v3 => false
  end.

(** [request.headers.get('accept')?.includes('text/html')] *)
Definition wants_html (request : Request) : bool :=
  match accept request with
  | Some a => includes a "text/html"
  | None => false
  end.

(** The key [caches.match] looks the fallback page up under. *)
Definition fallback_key (v : Variant) (env : Env) : string :=
  request_url (Request_of env (fallback_page v)).

Definition install (v : Variant) : Env → SW bool :=
  match v with
  | v1 => V1.install
  | v2 => V2.install
  | v3 => V3.install
  end.

(** What each install handler hands to [cache.addAll], with the cache it
    is called on. *)
Definition precached (v : Variant) : list (string * string) :=
  match v with
  | v1 => map (pair V1.STATIC_CACHE) V1.STATIC_ASSETS
  | v2 => map (pair V2.CACHE_NAME) V2.STATIC_ASSETS ++
          map (pair V2.STLITE_CACHE) V2.STLITE_RESOURCES
  | v3 => map (pair V3.CACHE_NAME) V3.STATIC_ASSETS
  end.

(** The caches the current version of a worker opens. *)
Definition current_caches (v : Variant) : list string :=
  match v with
  | v1 => [V1.STATIC_CACHE; V1.DYNAMIC_CACHE]
  | v2 => [V2.CACHE_NAME; V2.STLITE_CACHE]
  | v3 => [V3.CACHE_NAME]
  end.

(** The cache names the filter of an activate handler lets live. *)
Definition survives (v : Variant) (name : string) : bool :=
  match v with
  | v2 => startsWith name "ai-learning" || startsWith name "stlite"
  | _ => existsb (String.eqb name) (current_caches v)
  end.

Definition stored (cs : CacheStorage) (name k : string) : Prop :=
  ∃ r, entry cs name k r.

(** A run of fetch events, each with the network of its moment. *)
Fixpoint run_fetches (v : Variant) (events : list (Env * Request)) (w : World)
  : World :=
  match events with
  | [] => w
  | (env, request) :: events' =>
      run_fetches v events' (snd (fetch_handler v env request w))
  end.

(** ** JSON, as far as the worlds below use it

    The values and texts of a fragment of JSON on which [JSON.parse],
    [JSON.stringify], truth and [length] are simple to write down: [null],
    [true], [false], integers from 0 of up to fifteen digits, strings of
    characters that need no escape, arrays of these, and white space
    between tokens.  A text that is not JSON is refused as [JSON.parse]
    refuses it.  JSON outside the fragment (objects, escapes, signs,
    fractions, exponents, longer integers) is refused too: the worlds
    below store no such text. *)

Module Json.

#[local] Set Warnings "-register-all".

(** A JSON value, a number by its digits. *)
Inductive value :=
| Null
| Bool (b : bool)
| Num (digits : string)
| Str (s : string)
| Arr (items : list value).

#[local] Set Warnings "+register-all".

Definition quote : ascii := ascii_of_nat 34.

Definition is_ws (c : ascii) : bool :=
  let n := nat_of_ascii c in
  Nat.eqb n 32 || Nat.eqb n 9 || Nat.eqb n 10 || Nat.eqb n 13.

Definition is_digit (c : ascii) : bool :=
  let n := nat_of_ascii c in Nat.leb 48 n && Nat.leb n 57.

Fixpoint skip_ws (s : string) : string :=
  match s with
  | String c s' => if is_ws c then skip_ws s' else s
  | EmptyString => s
  end.

Fixpoint strip (p s : string) : option string :=
  match p, s with
  | EmptyString, _ => Some s
  | String a p', String b s' => if Ascii.eqb a b then strip p' s' else None
  | String _ _, EmptyString => None
  end.

Fixpoint read_digits (s : string) : string * string :=
  match s with
  | String c s' =>
      if is_digit c
      then let (d, r) := read_digits s' in (String c d, r)
      else (EmptyString, s)
  | EmptyString => (EmptyString, s)
  end.

(** The characters of a string up to the closing quote; a backslash or a
    control character ends the attempt. *)
Fixpoint read_chars (s : string) : option (string * string) :=
  match s with
  | String c s' =>
      if Ascii.eqb c quote then Some (EmptyString, s')
      else if Ascii.eqb c "\" then None
      else if Nat.ltb (nat_of_ascii c) 32 then None
      else match read_chars s' with
           | Some (t, r) => Some (String c t, r)
           | None => None
           end
  | EmptyString => None
  end.

(** [0], or up to fifteen digits without a leading zero. *)
Definition number (s : string) : option (value * string) :=
  let (d, r) := read_digits s in
  if Nat.ltb 15 (String.length d) then None
  else match d with
       | EmptyString => None
       | String c d' =>
           if Ascii.eqb c "0" && negb (String.eqb d' "") then None
           else Some (Num d, r)
       end.

Definition literal (s : string) : option (value * string) :=
  match strip "null" s with
  | Some r => Some (Null, r)
  | None =>
      match strip "true" s with
      | Some r => Some (Bool true, r)
      | None =>
          match strip "false" s with
          | Some r => Some (Bool false, r)
          | None => number s
          end
      end
  end.

Fixpoint parse_value (fuel : nat) (s : string) : option (value * string) :=
  match fuel with
  | 0 => None
  | S fuel' =>
      match skip_ws s with
      | String c r =>
          if Ascii.eqb c "[" then
            match skip_ws r with
            | String c' r' =>
                if Ascii.eqb c' "]" then Some (Arr [], r')
                else match parse_items fuel' r with
                     | Some (vs, r'') => Some (Arr vs, r'')
                     | None => None
                     end
            | EmptyString => None
            end
          else if Ascii.eqb c quote then
            match read_chars r with
            | Some (t, r') => Some (Str t, r')
            | None => None
            end
          else literal (String c r)
      | EmptyString => None
      end
  end
with parse_items (fuel : nat) (s : string) : option (list value * string) :=
  match fuel with
  | 0 => None
  | S fuel' =>
      match parse_value fuel' s with
      | Some (v, r) =>
          match skip_ws r with
          | String c r' =>
              if Ascii.eqb c "," then
                match parse_items fuel' r' with
                | Some (vs, r'') => Some (v :: vs, r'')
                | None => None
                end
              else if Ascii.eqb c "]" then Some ([v], r')
              else None
          | EmptyString => None
          end
      | None => None
      end
  end.

(** [JSON.parse(s)]: [None] is the SyntaxError. *)
Definition parse (s : string) : option value :=
  match parse_value (2 * String.length s + 2) s with
  | Some (v, r) =>
      match skip_ws r with
      | EmptyString => Some v
      | String _ _ => None
      end
  | None => None
  end.

(** [JSON.stringify(v)] *)
Fixpoint stringify (v : value) : string :=
  match v with
  | Null => "null"
  | Bool true => "true"
  | Bool false => "false"
  | Num d => d
  | Str s => String quote (s +:+ String quote "")
  | Arr items => "[" +:+ String.concat "," (map stringify items) +:+ "]"
  end.

(** The truth value JavaScript gives [v]. *)
Definition truthy (v : value) : bool :=
  match v with
  | Null => false
  | Bool b => b
  | Num d => negb (String.eqb d "0")
  | Str s => negb (String.eqb s "")
  | Arr _ => true
  end.

(** [v.length > 0]: strings and arrays have a length, for the other
    values [v.length] is [undefined] and the comparison false. *)
Definition length_gt_0 (v : value) : bool :=
  match v with
  | Str s => negb (String.eqb s "")
  | Arr items => negb (Nat.eqb (List.length items) 0)
  | _ => false
  end.

End Json.

(** ** Concrete worlds to run the workers in *)

Module Scenario.

(** Resolution against a worker served from [https://app.example/]. *)
Definition here (s : string) : URL :=
  if String.prefix "https://cdn.jsdelivr.net" s
  then mkURL "https" "cdn.jsdelivr.net" (substring 24 (String.length s - 24) s)
  else if String.prefix "./" s
  then mkURL "https" "app.example" (substring 1 (String.length s - 1) s)
  else mkURL "https" "app.example" s.

Definition get (u : URL) (a : option string) : Request :=
  {| method := "GET"; url := u; accept := a; payload := None |}.

(** Three networks: every request answered with an ok response, every
    request answered with an error status, every request failing. *)
Definition online : Env :=
  {| network := λ r, Some (mkResponse true (request_url r)); resolve := here |}.
Definition erring : Env :=
  {| network := λ _, Some (mkResponse false "Internal Server Error");
     resolve := here |}.
Definition offline : Env :=
  {| network := λ _, None; resolve := here |}.

Definition index_html : Response := mkResponse true "<!DOCTYPE html>".

Definition fresh : World := {| caches := []; netlog := [] |}.

(** A world in which the fallback pages of the three workers are cached. *)
Definition installed : World :=
  {| caches :=
       [("ai-learning-v2", {["https://app.example/index.html" := index_html]});
        ("ai-learning-v3", {["https://app.example/index.html" := index_html]});
        ("static-v1", {["https://app.example/offline.html" := index_html]})];
     netlog := [] |}.

Definition data_json : Request := get (here "/data/lessons.json") (Some "application/json").
Definition lesson_page : Request := get (here "/lesson/1") (Some "text/html").
Definition stlite_js : Request :=
  get (mkURL "https" "cdn.jsdelivr.net" "/npm/pyodide.js") (Some "*/*").

Definition extension_script : Request :=
  get (mkURL "chrome-extension" "abcdef" "/popup.js") None.

(** A world in which [lesson_page] is cached. *)
Definition cached_page : World :=
  {| caches := [("ai-learning-v2", {[request_url lesson_page := index_html]})];
     netlog := [] |}.

(** Cache Storage left behind by other versions of the worker. *)
Definition other_versions : CacheStorage :=
  [("ai-learning-v1", {[request_url lesson_page := index_html]});
   ("static-v1", ∅);
   ("ai-learning-v2", ∅)].

(** [localStorage] where it exists, holding a queue of one item, and the
    scope of a service worker, where it does not exist. *)
Definition pending : V1.Storage := Some {["syncQueue" := "[1]"]}.

Definition run_sync : Env → string → V1.Storage → SW V1.Storage :=
  V1.sync_handler Json.value Json.parse Json.stringify Json.truthy
    Json.length_gt_0.

End Scenario.

(** ** More concrete worlds *)

Module Walkthrough.

(** A network on which the CDN is unreachable and the origin answers. *)
Definition cdn_down : Env :=
  {| network := λ r,
       if String.eqb (hostname (url r)) "cdn.jsdelivr.net" then None
       else Some (mkResponse true (request_url r));
     resolve := Scenario.here |}.

(** [lesson_page] precached by v1 in [static-v1], [dynamic-v1] still
    empty: the order in which v1 creates its caches. *)
Definition precached_page : World :=
  {| caches :=
       [("static-v1",
         {[request_url Scenario.lesson_page := Scenario.index_html]});
        ("dynamic-v1", ∅)];
     netlog := [] |}.

(** [lesson_page] held by [dynamic-v1] alone. *)
Definition dynamic_page : World :=
  {| caches :=
       [("dynamic-v1",
         {[request_url Scenario.lesson_page := Scenario.index_html]})];
     netlog := [] |}.

(** A request sent without an Accept header. *)
Definition bare_page : Request := Scenario.get (Scenario.here "/lesson/1") None.

Definition index_request : Request :=
  Scenario.get (Scenario.here "./index.html") (Some "text/html").

End Walkthrough.

(** ** The embedding at work *)

Example includes_jsdelivr : includes "cdn.jsdelivr.net" "jsdelivr" = true.
Proof. reflexivity. Qed.

Example includes_accept :
  includes "text/html,application/xhtml+xml" "text/html" = true ∧
  includes "application/json" "text/html" = false.
Proof. split; reflexivity. Qed.

Example href_lesson_page :
  request_url Scenario.lesson_page = "https://app.example/lesson/1".
Proof. reflexivity. Qed.

Example v3_install_online :
  fst (V3.install Scenario.online Scenario.fresh) = true ∧
  netlog (snd (V3.install Scenario.online Scenario.fresh)) =
    map (Request_of Scenario.online) V3.STATIC_ASSETS.
Proof. split; reflexivity. Qed.

Example v3_install_offline :
  V3.install Scenario.offline Scenario.fresh =
    (false, {| caches := [("ai-learning-v3", ∅)];
               netlog := map (Request_of Scenario.offline) V3.STATIC_ASSETS |}).
Proof. reflexivity. Qed.

Example v1_activate_other_versions :
  caches_keys (V1.activate Scenario.other_versions) = ["static-v1"].
Proof. reflexivity. Qed.

Example json_parse_queue :
  Json.parse "[1]" = Some (Json.Arr [Json.Num "1"]) ∧
  Json.parse " [ 1 , [true, null] ] "
    = Some (Json.Arr [Json.Num "1"; Json.Arr [Json.Bool true; Json.Null]]) ∧
  Json.parse "[]" = Some (Json.Arr []) ∧
  Json.parse "null" = Some Json.Null.
Proof. repeat split; vm_compute; reflexivity. Qed.

Example json_parse_refuses :
  Json.parse "lesson-1:done" = None ∧ Json.parse "" = None ∧
  Json.parse "[1,]" = None ∧ Json.parse "[01]" = None ∧
  Json.parse "[1] x" = None.
Proof. repeat split; vm_compute; reflexivity. Qed.

Example json_round_trip :
  Json.parse (Json.stringify
    (Json.Arr [Json.Num "1"; Json.Arr [Json.Bool true; Json.Str "a"]; Json.Null]))
  = Some (Json.Arr [Json.Num "1"; Json.Arr [Json.Bool true; Json.Str "a"];
                    Json.Null]).
Proof. vm_compute. reflexivity. Qed.

Example json_pending :
  Json.truthy Json.Null = false ∧
  Json.truthy (Json.Num "0") = false ∧
  Json.truthy (Json.Arr []) && Json.length_gt_0 (Json.Arr []) = false ∧
  Json.truthy (Json.Num "7") && Json.length_gt_0 (Json.Num "7") = false ∧
  Json.truthy (Json.Arr [Json.Num "1"])
    && Json.length_gt_0 (Json.Arr [Json.Num "1"]) = true.
Proof. repeat split; reflexivity. Qed.

(** A stored text that is not JSON: reading the queue throws, and the
    sync handler sends nothing and leaves the text where it is. *)
Example sync_unreadable_queue :
  Scenario.run_sync Scenario.online "sync-progress"
    (Some {["syncQueue" := "lesson-1:done"]}) Scenario.fresh
  = (Some {["syncQueue" := "lesson-1:done"]}, Scenario.fresh).
Proof. vm_compute. reflexivity. Qed.

(** ** Strings: [startsWith] on a URL and on its protocol *)

Lemma prefix_cons a s1 b s2 :
  String.prefix (String a s1) (String b s2) =
  if Ascii.ascii_dec a b then String.prefix s1 s2 else false.
Proof. reflexivity. Qed.

Lemma append_cons a s t : String a s +:+ t = String a (s +:+ t).
Proof. reflexivity. Qed.

Lemma append_nil t : "" +:+ t = t.
Proof. reflexivity. Qed.

Lemma prefix_nil s : String.prefix "" s = true.
Proof. by destruct s. Qed.

(** Whatever follows the colon of the protocol cannot decide whether the
    URL starts with ["http"]: a scheme shorter than four characters puts
    its colon where ["http"] has a letter. *)
Lemma prefix_http_protocol (s rest : string) :
  String.prefix "http" ((s +:+ ":") +:+ rest) = String.prefix "http" (s +:+ ":").
Proof.
  destruct s as [|a [|b [|c [|d s]]]];
    rewrite ?append_cons, ?append_nil, ?append_cons, ?prefix_cons, ?prefix_nil;
    repeat (match goal with
            | |- context [Ascii.ascii_dec ?x ?y] =>
                destruct (Ascii.ascii_dec x y); try discriminate
            end);
    reflexivity.
Qed.

(** v3 tests [request.url], v1 and v2 test [url.protocol]: the same test. *)
Lemma startsWith_href (u : URL) :
  startsWith (href u) "http" = startsWith (protocol u) "http".
Proof. unfold startsWith, href, protocol. apply prefix_http_protocol. Qed.

(** ** Cache Storage *)

Lemma caches_has_spec (name : string) (cs : CacheStorage) :
  caches_has name cs = true ↔ has_cache cs name.
Proof.
  unfold caches_has, caches_keys, has_cache. rewrite existsb_exists. split.
  - intros (n & Hin & Heq). apply String.eqb_eq in Heq. subst n.
    apply in_map_iff in Hin as ([n c] & Hn & Hin). simpl in Hn. subst n. eauto.
  - intros (c & Hin). exists name. split; [|apply String.eqb_refl].
    apply in_map_iff. exists (name, c). auto.
Qed.

Lemma caches_open_has (name : string) (cs : CacheStorage) :
  has_cache (caches_open name cs) name.
Proof.
  unfold caches_open. destruct (caches_has name cs) eqn:E.
  - by apply caches_has_spec.
  - exists ∅. apply in_or_app. right. by left.
Qed.

Lemma caches_open_match (name : string) (cs : CacheStorage) (k : string) :
  caches_match (caches_open name cs) k = caches_match cs k.
Proof.
  unfold caches_open. destruct (caches_has name cs); [done|].
  induction cs as [|[n c] cs IH]; simpl; [done|].
  destruct (c !! k); [done|apply IH].
Qed.

Lemma caches_open_entry (name : string) (cs : CacheStorage) n k r :
  entry (caches_open name cs) n k r ↔ entry cs n k r.
Proof.
  unfold caches_open, entry. destruct (caches_has name cs); [done|].
  split.
  - intros (c & Hin & Hk). apply in_app_or in Hin as [Hin|[Heq|[]]]; [eauto|].
    inversion Heq; subst. by rewrite lookup_empty in Hk.
  - intros (c & Hin & Hk). exists c. split; [|done]. apply in_or_app. by left.
Qed.

Lemma caches_open_stored name cs n k :
  stored cs n k → stored (caches_open name cs) n k.
Proof. intros [r He]. exists r. by apply caches_open_entry. Qed.

(** A response put under a key no cache holds is what [caches.match]
    finds next. *)
Lemma cache_put_match_miss (name k : string) (r : Response) (cs : CacheStorage) :
  caches_match cs k = None → has_cache cs name →
  caches_match (cache_put name k r cs) k = Some r.
Proof.
  induction cs as [|[n c] cs IH]; simpl; intros Hmiss [c0 Hin]; [done|].
  destruct (c !! k) eqn:Hk; [done|].
  destruct (String.eqb n name) eqn:En; simpl.
  - by rewrite lookup_insert_eq.
  - rewrite Hk. apply IH; [done|]. destruct Hin as [Heq|Hin]; [|by exists c0].
    inversion Heq; subst. by rewrite String.eqb_refl in En.
Qed.

(** [cache.put] adds one entry and touches no other. *)
Lemma cache_put_entry (name k : string) (r : Response) (cs : CacheStorage)
    n k' r' :
  entry (cache_put name k r cs) n k' r' →
  (n = name ∧ k' = k ∧ r' = r) ∨ entry cs n k' r'.
Proof.
  unfold entry, cache_put. intros (c & Hin & Hk).
  apply in_map_iff in Hin as ([n0 c0] & Heq & Hin). simpl in Heq.
  destruct (String.eqb n0 name) eqn:En.
  - apply String.eqb_eq in En. inversion Heq; subst.
    destruct (decide (k = k')) as [->|Hne].
    + rewrite lookup_insert_eq in Hk. left. naive_solver.
    + rewrite lookup_insert_ne in Hk by done. right. eauto.
  - inversion Heq; subst. right. eauto.
Qed.

Lemma cache_put_has (name k : string) (r : Response) (cs : CacheStorage) n :
  has_cache cs n → has_cache (cache_put name k r cs) n.
Proof.
  unfold has_cache, cache_put. intros (c & Hin).
  destruct (String.eqb n name) eqn:En.
  - exists (<[k:=r]> c). apply in_map_iff. exists (n, c). simpl. by rewrite En.
  - exists c. apply in_map_iff. exists (n, c). simpl. by rewrite En.
Qed.

Lemma cache_put_stored name k r cs n k' :
  stored cs n k' → stored (cache_put name k r cs) n k'.
Proof.
  intros (r' & c & Hin & Hk). unfold stored, entry, cache_put.
  destruct (String.eqb n name) eqn:En.
  - destruct (decide (k = k')) as [->|Hne].
    + exists r, (<[k':=r]> c). split; [|apply lookup_insert_eq].
      apply in_map_iff. exists (n, c). simpl. by rewrite En.
    + exists r', (<[k:=r]> c). split; [|by rewrite lookup_insert_ne].
      apply in_map_iff. exists (n, c). simpl. by rewrite En.
  - exists r', c. split; [|done].
    apply in_map_iff. exists (n, c). simpl. by rewrite En.
Qed.

Lemma cache_put_stores name k r cs :
  has_cache cs name → stored (cache_put name k r cs) name k.
Proof.
  intros [c Hin]. exists r, (<[k:=r]> c). split; [|apply lookup_insert_eq].
  apply in_map_iff. exists (name, c). simpl. by rewrite String.eqb_refl.
Qed.

(** [caches.open(name).then((cache) => cache.put(k, r))] *)
Lemma open_put_match_miss name k r cs :
  caches_match cs k = None →
  caches_match (cache_put name k r (caches_open name cs)) k = Some r.
Proof.
  intros Hmiss. apply cache_put_match_miss.
  - by rewrite caches_open_match.
  - apply caches_open_has.
Qed.

Lemma open_put_entry name k r cs :
  entry (cache_put name k r (caches_open name cs)) name k r.
Proof.
  destruct (caches_open_has name cs) as [c Hin].
  exists (<[k:=r]> c). split; [|apply lookup_insert_eq].
  apply in_map_iff. exists (name, c). simpl. by rewrite String.eqb_refl.
Qed.

Lemma open_put_entry_inv name k r cs n k' r' :
  entry (cache_put name k r (caches_open name cs)) n k' r' →
  entry cs n k' r' ∨ r' = r.
Proof.
  intros [(_ & _ & ->)|He]%cache_put_entry; [by right|].
  left. by apply caches_open_entry in He.
Qed.

(** ** The fetch handlers *)

Ltac run_handler :=
  unfold fetch_handler, V1.fetch_handler, V2.fetch_handler, V3.fetch_handler,
    V1.updateCache, open_then_put, match_url, match_request, fetch, on_caches,
    mbind, mret, SW_bind, SW_ret in *;
  cbn [fst snd caches netlog] in *.

Ltac pass_guards H :=
  unfold intercepts in H; apply andb_true_iff in H as [?Hget ?Hhttp];
  run_handler; rewrite ?Hget, ?Hhttp; cbn [negb].

(** The three workers intercept the same requests. *)
Lemma intercepts_agree (v v' : Variant) (request : Request) :
  intercepts v request = intercepts v' request.
Proof.
  unfold intercepts, request_url. rewrite startsWith_href.
  by destruct v, v'.
Qed.

Lemma fetch_handler_skip (v : Variant) env request w :
  intercepts v request = false → fetch_handler v env request w = (None, w).
Proof.
  unfold intercepts. intros H. apply andb_false_iff in H.
  destruct v; run_handler;
    destruct (String.eqb (method request) "GET"); simpl; try done;
    destruct H as [H|H]; try done; by rewrite H.
Qed.

Lemma responds (v : Variant) env request w :
  intercepts v request = true →
  fst (fetch_handler v env request w) ≠ None.
Proof.
  intros H.
  destruct v; pass_guards H;
    try destruct (V2.is_cdn (url request));
    destruct (caches_match (caches w) (request_url request));
    destruct (network env request) as [[[] ?]|];
    try destruct (accept request) as [a|];
    try destruct (includes a "text/html"); done.
Qed.

Lemma cache_hit_response (v : Variant) env request w cached :
  intercepts v request = true →
  caches_match (caches w) (request_url request) = Some cached →
  fst (fetch_handler v env request w) = Some (Fulfilled (Some cached)).
Proof.
  intros H Hhit.
  destruct v; pass_guards H;
    try destruct (V2.is_cdn (url request)); rewrite Hhit;
    try done;
    by destruct (network env request) as [[[] ?]|].
Qed.

Lemma cache_miss_response (v : Variant) env request w response :
  intercepts v request = true →
  caches_match (caches w) (request_url request) = None →
  network env request = Some response →
  fst (fetch_handler v env request w) = Some (Fulfilled (Some response)).
Proof.
  intros H Hmiss Hnet.
  destruct v; pass_guards H;
    try destruct (V2.is_cdn (url request)); rewrite Hmiss, Hnet;
    by destruct (ok response).
Qed.

(** One run of a fetch handler adds nothing but ok responses. *)
Lemma fetch_handler_entries (v : Variant) env request w n k r :
  entry (caches (snd (fetch_handler v env request w))) n k r →
  entry (caches w) n k r ∨ ok r = true.
Proof.
  destruct (intercepts v request) eqn:H.
  - destruct v; pass_guards H;
      try destruct (V2.is_cdn (url request));
      destruct (caches_match (caches w) (request_url request));
      destruct (network env request) as [response|];
      try destruct (ok response) eqn:Hok;
      try destruct (accept request) as [a|];
      try destruct (includes a "text/html");
      cbn [fst snd caches]; auto;
      intros [He| ->]%open_put_entry_inv; auto.
  - rewrite fetch_handler_skip by done. auto.
Qed.

(** C1 (amended).  For every request a worker intercepts (GET, URL
    starting with http): a response stored for the request is what the
    handler answers with; on a miss, a response the network gives is what
    the handler answers with, and it is stored (in the cache the worker
    writes to, where [caches.match] then finds it) exactly when it is ok;
    a response that is not ok leaves Cache Storage as it was. *)
Theorem cache_first_policy (v : Variant) env request w :
  intercepts v request = true →
  (∀ cached, caches_match (caches w) (request_url request) = Some cached →
     fst (fetch_handler v env request w) = Some (Fulfilled (Some cached))) ∧
  (∀ response,
     caches_match (caches w) (request_url request) = None →
     network env request = Some response →
     fst (fetch_handler v env request w) = Some (Fulfilled (Some response)) ∧
     (ok response = true →
        caches_match (caches (snd (fetch_handler v env request w)))
          (request_url request) = Some response ∧
        entry (caches (snd (fetch_handler v env request w)))
          (write_cache v request) (request_url request) response) ∧
     (ok response = false →
        caches (snd (fetch_handler v env request w)) = caches w)).
Proof.
  intros H. split.
  - intros cached Hhit. by apply cache_hit_response.
  - intros response Hmiss Hnet.
    destruct v; pass_guards H; unfold write_cache;
      try destruct (V2.is_cdn (url request));
      rewrite Hmiss, Hnet; destruct (ok response) eqn:Hok;
      cbn [fst snd caches]; (split; [done|]); split; try done;
      intros _; split;
      auto using open_put_match_miss, open_put_entry.
Qed.

(** C1, witness: v3 online, nothing cached; the network response is the
    answer and is found in the cache afterwards. *)
Lemma cache_first_policy_witness :
  intercepts v3 Scenario.data_json = true ∧
  caches_match (caches Scenario.fresh) (request_url Scenario.data_json) = None ∧
  caches_match
    (caches (snd (fetch_handler v3 Scenario.online Scenario.data_json
                    Scenario.fresh)))
    (request_url Scenario.data_json)
  = Some (mkResponse true "https://app.example/data/lessons.json").
Proof.
  split; [reflexivity|]. split; [reflexivity|].
  destruct (cache_first_policy v3 Scenario.online Scenario.data_json
              Scenario.fresh eq_refl) as [_ Hmiss].
  destruct (Hmiss _ eq_refl eq_refl) as (_ & Hok & _).
  exact (proj1 (Hok eq_refl)).
Defined.

(** C1, as stated, fails: v3 with nothing cached and a network answering
    with an error status returns that response and stores nothing. *)
Lemma cache_first_stores_every_result_fails :
  ¬ (∀ response,
       caches_match (caches Scenario.fresh) (request_url Scenario.data_json) = None →
       network Scenario.erring Scenario.data_json = Some response →
       fst (fetch_handler v3 Scenario.erring Scenario.data_json Scenario.fresh)
         = Some (Fulfilled (Some response)) ∧
       caches_match
         (caches (snd (fetch_handler v3 Scenario.erring Scenario.data_json
                         Scenario.fresh)))
         (request_url Scenario.data_json) = Some response).
Proof.
  intros H. destruct (H _ eq_refl eq_refl) as [_ Hstored].
  vm_compute in Hstored. discriminate.
Qed.

(** C2 (amended).  The three workers skip the same requests, and whenever
    the request is cached or the network answers they give the same
    response.  (They write to different caches, only v1 and the local
    branch of v2 refresh a cached entry, and their fallbacks differ.) *)
Theorem variants_agree (v v' : Variant) env request w :
  (fst (fetch_handler v env request w) = None ↔
   fst (fetch_handler v' env request w) = None) ∧
  (caches_match (caches w) (request_url request) ≠ None ∨
   network env request ≠ None →
   fst (fetch_handler v env request w) = fst (fetch_handler v' env request w)).
Proof.
  pose proof (intercepts_agree v v' request) as Hagree.
  destruct (intercepts v request) eqn:H; symmetry in Hagree.
  - destruct (caches_match (caches w) (request_url request)) as [c|] eqn:Hm.
    + rewrite (cache_hit_response v env request w c H Hm).
      rewrite (cache_hit_response v' env request w c Hagree Hm).
      split; [split; discriminate|done].
    + destruct (network env request) as [r|] eqn:Hnet.
      * rewrite (cache_miss_response v env request w r H Hm Hnet).
        rewrite (cache_miss_response v' env request w r Hagree Hm Hnet).
        split; [split; discriminate|done].
      * split; [|by intros [?|?]].
        pose proof (responds v env request w H).
        pose proof (responds v' env request w Hagree). split; congruence.
  - rewrite !fetch_handler_skip by done. done.
Qed.

(** C2, witness: online and nothing cached, v1 and v3 answer alike. *)
Lemma variants_agree_witness :
  network Scenario.online Scenario.data_json ≠ None ∧
  fst (fetch_handler v1 Scenario.online Scenario.data_json Scenario.fresh) =
  fst (fetch_handler v3 Scenario.online Scenario.data_json Scenario.fresh).
Proof.
  assert (Hnet : network Scenario.online Scenario.data_json ≠ None)
    by discriminate.
  split; [exact Hnet|].
  exact (proj2 (variants_agree v1 v3 Scenario.online Scenario.data_json
                  Scenario.fresh) (or_intror Hnet)).
Defined.

(** C2, as stated, fails: on the same request, from the same empty Cache
    Storage, v1 creates and fills [dynamic-v1] and v3 [ai-learning-v3]. *)
Lemma variants_leave_different_caches :
  ¬ (∀ v v',
       fst (fetch_handler v Scenario.online Scenario.data_json Scenario.fresh) =
       fst (fetch_handler v' Scenario.online Scenario.data_json Scenario.fresh) ∧
       caches (snd (fetch_handler v Scenario.online Scenario.data_json
                      Scenario.fresh)) =
       caches (snd (fetch_handler v' Scenario.online Scenario.data_json
                      Scenario.fresh))).
Proof.
  intros H. destruct (H v1 v3) as [_ Hcaches].
  apply (f_equal caches_keys) in Hcaches. vm_compute in Hcaches. discriminate.
Qed.

(** C3 (amended).  On a cache hit every worker answers with the cached
    response; v3 and the CDN branch of v2 send nothing to the network,
    v1 and the local branch of v2 send the request once, to refresh the
    entry in the background. *)
Theorem cache_hit_network_use (v : Variant) env request w cached :
  intercepts v request = true →
  caches_match (caches w) (request_url request) = Some cached →
  fst (fetch_handler v env request w) = Some (Fulfilled (Some cached)) ∧
  netlog (snd (fetch_handler v env request w)) =
    if refreshes v request then netlog w ++ [request] else netlog w.
Proof.
  intros H Hhit.
  destruct v; pass_guards H; unfold refreshes;
    try destruct (V2.is_cdn (url request)); rewrite Hhit; cbn [negb];
    try done;
    by destruct (network env request) as [[[] ?]|].
Qed.

(** C3, witness: v3 answers a cached page without any network request. *)
Lemma cache_hit_network_use_witness :
  intercepts v3 Scenario.lesson_page = true ∧
  caches_match (caches Scenario.cached_page) (request_url Scenario.lesson_page)
    = Some Scenario.index_html ∧
  netlog (snd (fetch_handler v3 Scenario.online Scenario.lesson_page
                 Scenario.cached_page)) = [].
Proof.
  split; [reflexivity|]. split; [reflexivity|].
  exact (proj2 (cache_hit_network_use v3 Scenario.online Scenario.lesson_page
                  Scenario.cached_page Scenario.index_html eq_refl eq_refl)).
Defined.

(** C3, as stated, fails: v2 answers a cached local page and fetches it
    from the network all the same. *)
Lemma cache_hit_still_fetches :
  ¬ (intercepts v2 Scenario.lesson_page = true →
     ∀ cached,
       caches_match (caches Scenario.cached_page)
         (request_url Scenario.lesson_page) = Some cached →
       netlog (snd (fetch_handler v2 Scenario.online Scenario.lesson_page
                      Scenario.cached_page)) = netlog Scenario.cached_page).
Proof.
  intros H. specialize (H eq_refl _ eq_refl). vm_compute in H. discriminate.
Qed.

(** C5 (amended).  With the network failing a fetch handler changes no
    cache, and: on a hit the cached response is the answer (v1 and v2
    swallow the failure of their background refresh); on a miss v3 answers
    with what [caches.match('./index.html')] finds, v1 and the local
    branch of v2 answer with what [caches.match] finds for their fallback
    page only for a request that accepts text/html and with no value
    otherwise (v1: when the header is there), and the CDN branch of v2
    has no catch: its promise rejects. *)
Theorem failure_handling (v : Variant) env request w :
  intercepts v request = true →
  network env request = None →
  let run := fetch_handler v env request w in
  let page := caches_match (caches w) (fallback_key v env) in
  caches (snd run) = caches w ∧
  (∀ cached, caches_match (caches w) (request_url request) = Some cached →
     fst run = Some (Fulfilled (Some cached))) ∧
  (caches_match (caches w) (request_url request) = None →
     match v with
     | v3 => fst run = Some (Fulfilled page)
     | v2 =>
         if V2.is_cdn (url request) then fst run = Some Rejected
         else fst run = Some (Fulfilled (if wants_html request then page else None))
     | v1 =>
         accept request ≠ None →
         fst run = Some (Fulfilled (if wants_html request then page else None))
     end).
Proof.
  intros H Hnet. unfold wants_html, fallback_key.
  destruct v; pass_guards H; cbn zeta;
    try destruct (V2.is_cdn (url request));
    rewrite ?Hnet;
    destruct (caches_match (caches w) (request_url request)) as [c|] eqn:Hm;
    rewrite ?Hnet; cbn [fst snd caches];
    try destruct (accept request) as [a|];
    try destruct (includes a "text/html");
    repeat split; try done; intros; simplify_eq; done.
Qed.

(** C5, witness: v3 offline answers an uncached page with the cached
    [index.html]. *)
Lemma failure_handling_witness :
  intercepts v3 Scenario.lesson_page = true ∧
  network Scenario.offline Scenario.lesson_page = None ∧
  fst (fetch_handler v3 Scenario.offline Scenario.lesson_page Scenario.installed)
    = Some (Fulfilled (Some Scenario.index_html)).
Proof.
  split; [reflexivity|]. split; [reflexivity|].
  destruct (failure_handling v3 Scenario.offline Scenario.lesson_page
              Scenario.installed eq_refl eq_refl) as (_ & _ & Hmiss).
  exact (Hmiss eq_refl).
Defined.

(** C5, as stated, fails: v1 offline, [offline.html] cached, a request
    that accepts only JSON gets no value, not the fallback page. *)
Lemma json_request_gets_no_fallback :
  ¬ (caches_match (caches Scenario.installed) (request_url Scenario.data_json)
       = None →
     network Scenario.offline Scenario.data_json = None →
     fst (fetch_handler v1 Scenario.offline Scenario.data_json Scenario.installed)
       = Some (Fulfilled (caches_match (caches Scenario.installed)
                            (fallback_key v1 Scenario.offline)))).
Proof.
  intros H. specialize (H eq_refl eq_refl). vm_compute in H. discriminate.
Qed.

(** C8.  After any run of fetch events, each with its own network, every
    entry of Cache Storage was there before the run or is an ok response:
    every [cache.put] of a fetch handler and of [updateCache] stands behind
    [response.ok], and a failed fetch stores nothing. *)
Theorem only_ok_responses_cached (v : Variant) events w n k r :
  entry (caches (run_fetches v events w)) n k r →
  entry (caches w) n k r ∨ ok r = true.
Proof.
  revert w. induction events as [|[env request] events IH]; intros w; simpl.
  - auto.
  - intros [He|Hok]%IH; [|by right].
    by apply fetch_handler_entries in He.
Qed.

(** C8, witness: v1 sees an error status, then an ok response; the one
    entry of [dynamic-v1] is the ok response. *)
Lemma only_ok_responses_cached_witness :
  entry (caches (run_fetches v1
                   [(Scenario.erring, Scenario.lesson_page);
                    (Scenario.online, Scenario.data_json)] Scenario.fresh))
        "dynamic-v1" (request_url Scenario.data_json)
        (mkResponse true (request_url Scenario.data_json)) ∧
  (entry (caches Scenario.fresh) "dynamic-v1" (request_url Scenario.data_json)
         (mkResponse true (request_url Scenario.data_json)) ∨
   ok (mkResponse true (request_url Scenario.data_json)) = true).
Proof.
  assert (He : entry (caches (run_fetches v1
                   [(Scenario.erring, Scenario.lesson_page);
                    (Scenario.online, Scenario.data_json)] Scenario.fresh))
        "dynamic-v1" (request_url Scenario.data_json)
        (mkResponse true (request_url Scenario.data_json))).
  { eexists. split; [left; reflexivity|]. vm_compute. reflexivity. }
  split; [exact He|].
  exact (only_ok_responses_cached v1 _ _ _ _ _ He).
Defined.

(** The guard lets [http:] and [https:] through: what it skips is not
    http(s). *)
Lemma skipped_protocol_not_http_s (u : URL) :
  startsWith (protocol u) "http" = false →
  protocol u ≠ "http:" ∧ protocol u ≠ "https:".
Proof.
  intros H. split; intros Heq; rewrite Heq in H; discriminate.
Qed.

(** C9.  A request whose method is not GET, or whose URL protocol is not
    http(s) (the guard of the workers: it does not start with ["http"],
    as no protocol a browser hands to a fetch handler other than [http:]
    and [https:] does), passes through every worker untouched:
    [respondWith] is not called, no cache changes, nothing is sent to the
    network. *)
Theorem skipped_requests_untouched (v : Variant) env request w :
  method request ≠ "GET" ∨ startsWith (protocol (url request)) "http" = false →
  fetch_handler v env request w = (None, w).
Proof.
  intros H. apply fetch_handler_skip.
  rewrite (intercepts_agree v v1). unfold intercepts.
  apply andb_false_iff. destruct H as [H|H]; [left|by right].
  by apply String.eqb_neq.
Qed.

(** C9, witness: a [chrome-extension:] request passes through v2. *)
Lemma skipped_requests_untouched_witness :
  startsWith (protocol (url Scenario.extension_script)) "http" = false ∧
  fetch_handler v2 Scenario.online Scenario.extension_script Scenario.fresh
    = (None, Scenario.fresh).
Proof.
  split; [reflexivity|].
  apply (skipped_requests_untouched v2 Scenario.online
           Scenario.extension_script Scenario.fresh).
  right. reflexivity.
Defined.

(** C10 (amended).  Cache miss, network failure, fallback page cached,
    outside the CDN branch of v2: v3 answers every request with the
    fallback page; v2 answers with it when the request accepts text/html
    and with no value when it does not or has no Accept header; v1, given
    an Accept header, answers with the page when the header includes
    text/html and with no value when it does not. *)
Theorem fallback_defined (v : Variant) env request w page :
  intercepts v request = true →
  cdn_branch v request = false →
  caches_match (caches w) (request_url request) = None →
  network env request = None →
  caches_match (caches w) (fallback_key v env) = Some page →
  let result := fst (fetch_handler v env request w) in
  match v with
  | v3 => result = Some (Fulfilled (Some page))
  | v2 => result = Some (Fulfilled (if wants_html request then Some page else None))
  | v1 => accept request ≠ None →
          result = Some (Fulfilled (if wants_html request then Some page else None))
  end.
Proof.
  intros H Hcdn Hmiss Hnet Hpage. unfold wants_html, fallback_key in *.
  destruct v; simpl in Hcdn; pass_guards H; cbn zeta;
    rewrite ?Hcdn, Hmiss, Hnet;
    try destruct (accept request) as [a|];
    try destruct (includes a "text/html");
    cbn [fst snd caches]; cbn [fallback_page] in Hpage; rewrite ?Hpage; done.
Qed.

(** C10, witness: v2 offline answers an uncached HTML page with the
    cached [index.html]. *)
Lemma fallback_defined_witness :
  intercepts v2 Scenario.lesson_page = true ∧
  cdn_branch v2 Scenario.lesson_page = false ∧
  caches_match (caches Scenario.installed) (request_url Scenario.lesson_page)
    = None ∧
  network Scenario.offline Scenario.lesson_page = None ∧
  caches_match (caches Scenario.installed) (fallback_key v2 Scenario.offline)
    = Some Scenario.index_html ∧
  fst (fetch_handler v2 Scenario.offline Scenario.lesson_page Scenario.installed)
    = Some (Fulfilled (Some Scenario.index_html)).
Proof.
  repeat (split; [reflexivity|]).
  exact (fallback_defined v2 Scenario.offline Scenario.lesson_page
           Scenario.installed Scenario.index_html
           eq_refl eq_refl eq_refl eq_refl eq_refl).
Defined.

(** C10, as stated, fails: v2 offline, [index.html] cached, a request
    that accepts only JSON: the catch branch resolves with no value. *)
Lemma catch_branch_yields_no_value :
  ¬ (caches_match (caches Scenario.installed) (request_url Scenario.data_json)
       = None →
     network Scenario.offline Scenario.data_json = None →
     ∃ r, fst (fetch_handler v2 Scenario.offline Scenario.data_json
                 Scenario.installed) = Some (Fulfilled (Some r))).
Proof.
  intros H. destruct (H eq_refl eq_refl) as [r Hr].
  vm_compute in Hr. discriminate.
Qed.

(** The CDN branch of v2 has no catch: offline, an uncached script is
    answered with a rejected promise although [index.html] is cached. *)
Lemma cdn_failure_rejects :
  V2.is_cdn (url Scenario.stlite_js) = true ∧
  fst (fetch_handler v2 Scenario.offline Scenario.stlite_js Scenario.installed)
    = Some Rejected.
Proof. split; reflexivity. Qed.

(** The slip C10 names: v1 dereferences a missing Accept header inside
    its catch branch, and the promise given to [respondWith] rejects. *)
Lemma v1_missing_accept_rejects env request w :
  intercepts v1 request = true →
  caches_match (caches w) (request_url request) = None →
  network env request = None →
  accept request = None →
  fetch_handler v1 env request w =
    (Some Rejected, {| caches := caches w; netlog := netlog w ++ [request] |}).
Proof.
  intros H Hmiss Hnet Hacc. pass_guards H. by rewrite Hmiss, Hnet, Hacc.
Qed.

(** ** The install handlers *)

Section AddAll.

Variable env : Env.

Lemma fetch_all_spec (rs : list Request) (w : World) :
  fetch_all env rs w =
    (map (λ r, (r, network env r)) rs,
     {| caches := caches w; netlog := netlog w ++ rs |}).
Proof.
  revert w. induction rs as [|r rs IH]; intros w; simpl.
  - rewrite app_nil_r. by destruct w.
  - unfold mbind, SW_bind, fetch, mret, SW_ret. rewrite IH. simpl.
    by rewrite <- app_assoc.
Qed.

Lemma put_all_has name xs w n :
  has_cache (caches w) n → has_cache (caches (snd (put_all name xs w))) n.
Proof.
  revert w. induction xs as [|[r [resp|]] xs IH]; intros w Hn; simpl; auto.
  unfold mbind, SW_bind, on_caches. apply IH. simpl. by apply cache_put_has.
Qed.

Lemma put_all_stored name xs w n k :
  stored (caches w) n k → stored (caches (snd (put_all name xs w))) n k.
Proof.
  revert w. induction xs as [|[r [resp|]] xs IH]; intros w Hn; simpl; auto.
  unfold mbind, SW_bind, on_caches. apply IH. simpl. by apply cache_put_stored.
Qed.

Lemma put_all_stores name xs w r resp :
  has_cache (caches w) name → In (r, Some resp) xs →
  stored (caches (snd (put_all name xs w))) name (request_url r).
Proof.
  revert w. induction xs as [|[r0 [resp0|]] xs IH]; intros w Hn Hin; simpl.
  - destruct Hin.
  - unfold mbind, SW_bind, on_caches. destruct Hin as [Heq|Hin].
    + inversion Heq; subst. apply put_all_stored. simpl.
      by apply cache_put_stores.
    + apply IH; [|done]. simpl. by apply cache_put_has.
  - destruct Hin as [Heq|Hin]; [done|]. by apply IH.
Qed.

(** Whatever [addAll] does, it removes no entry. *)
Lemma cache_addAll_stored name urls w n k :
  stored (caches w) n k →
  stored (caches (snd (cache_addAll env name urls w))) n k.
Proof.
  intros Hn. unfold cache_addAll, mbind, SW_bind. rewrite fetch_all_spec.
  destruct (forallb _ _); [|done].
  destruct (put_all name _ _) as [[] w'] eqn:E. simpl.
  change w' with (snd (tt, w')). rewrite <- E. by apply put_all_stored.
Qed.

(** A fulfilled [addAll] has stored an entry for every URL of its list. *)
Lemma cache_addAll_stores name urls w u :
  has_cache (caches w) name →
  fst (cache_addAll env name urls w) = true →
  In u urls →
  stored (caches (snd (cache_addAll env name urls w))) name
    (href (resolve env u)).
Proof.
  intros Hn Hok Hu. revert Hok.
  unfold cache_addAll, mbind, SW_bind. rewrite fetch_all_spec.
  destruct (forallb _ _) eqn:Hall; [|done]. intros _.
  destruct (put_all name _ _) as [[] w'] eqn:E. simpl.
  change w' with (snd (tt, w')). rewrite <- E.
  rewrite forallb_forall in Hall.
  assert (In (Request_of env u, network env (Request_of env u))
            (map (λ r, (r, network env r)) (map (Request_of env) urls))) as Hin.
  { apply in_map_iff. exists (Request_of env u). split; [done|].
    by apply in_map. }
  specialize (Hall _ Hin). unfold fetched_ok in Hall. simpl in Hall.
  destruct (network env (Request_of env u)) as [resp|] eqn:Hnet; [|done].
  by apply (put_all_stores name _ _ (Request_of env u) resp).
Qed.

(** [addAll] is fulfilled when the network serves every URL of its list
    with an ok response. *)
Lemma cache_addAll_served name urls w :
  (∀ u, In u urls →
        ∃ resp, network env (Request_of env u) = Some resp ∧ ok resp = true) →
  fst (cache_addAll env name urls w) = true.
Proof.
  intros Hserved. unfold cache_addAll, mbind, SW_bind. rewrite fetch_all_spec.
  destruct (forallb _ _) eqn:Hall.
  - by destruct (put_all name _ _) as [[] w'].
  - exfalso. apply not_true_iff_false in Hall. apply Hall.
    apply forallb_forall. intros [r x] Hin.
    apply in_map_iff in Hin as (r' & Heq & Hin). inversion Heq; subst.
    apply in_map_iff in Hin as (u & <- & Hu).
    destruct (Hserved u Hu) as (resp & Hnet & Hok).
    unfold fetched_ok. simpl. by rewrite Hnet.
Qed.

End AddAll.

(** Installation completes when the network serves every listed URL. *)
Lemma install_completes (v : Variant) env w :
  (∀ name u, In (name, u) (precached v) →
     ∃ resp, network env (Request_of env u) = Some resp ∧ ok resp = true) →
  fst (install v env w) = true.
Proof.
  intros Hserved.
  destruct v; unfold install, precached, V1.install, V2.install, V3.install,
    mbind, SW_bind, mret, SW_ret, on_caches in *; cbn [fst snd caches netlog].
  - apply cache_addAll_served. intros u Hu.
    apply (Hserved V1.STATIC_CACHE). by apply in_map.
  - match goal with
    | |- context [cache_addAll env V2.CACHE_NAME V2.STATIC_ASSETS ?w1] =>
        pose proof (cache_addAll_served env V2.CACHE_NAME V2.STATIC_ASSETS w1) as H1;
        destruct (cache_addAll env V2.CACHE_NAME V2.STATIC_ASSETS w1) as [a w2]
    end.
    match goal with
    | |- context [cache_addAll env V2.STLITE_CACHE V2.STLITE_RESOURCES ?w3] =>
        pose proof (cache_addAll_served env V2.STLITE_CACHE V2.STLITE_RESOURCES w3) as H2;
        destruct (cache_addAll env V2.STLITE_CACHE V2.STLITE_RESOURCES w3) as [b w4]
    end.
    cbn [fst snd] in *. rewrite H1, H2; [done|..]; intros u Hu.
    + apply (Hserved V2.STLITE_CACHE). apply in_or_app. right. by apply in_map.
    + apply (Hserved V2.CACHE_NAME). apply in_or_app. left. by apply in_map.
  - apply cache_addAll_served. intros u Hu.
    apply (Hserved V3.CACHE_NAME). by apply in_map.
Qed.

(** C6.  When the promise an install handler waits for is fulfilled, every
    URL of STATIC_ASSETS has an entry in the cache the handler opened for
    it, and in v2 every URL of STLITE_RESOURCES has one in STLITE_CACHE. *)
Theorem install_populates (v : Variant) env w name u :
  fst (install v env w) = true →
  In (name, u) (precached v) →
  stored (caches (snd (install v env w))) name (href (resolve env u)).
Proof.
  destruct v; unfold install, precached, V1.install, V2.install, V3.install,
    mbind, SW_bind, mret, SW_ret, on_caches; cbn [fst snd caches netlog].
  - intros Hok (u' & Heq & Hu)%in_map_iff. inversion Heq; subst.
    apply cache_addAll_stores; [apply caches_open_has|done..].
  - set (w1 := {| caches := caches_open V2.CACHE_NAME (caches w) |}).
    pose proof (cache_addAll_stores env V2.CACHE_NAME V2.STATIC_ASSETS w1) as H1.
    destruct (cache_addAll env V2.CACHE_NAME V2.STATIC_ASSETS w1) as [a w2].
    cbn [fst snd] in *.
    set (w3 := {| caches := caches_open V2.STLITE_CACHE (caches w2) |}).
    pose proof (cache_addAll_stores env V2.STLITE_CACHE V2.STLITE_RESOURCES w3) as H2.
    pose proof (cache_addAll_stored env V2.STLITE_CACHE V2.STLITE_RESOURCES w3) as H3.
    destruct (cache_addAll env V2.STLITE_CACHE V2.STLITE_RESOURCES w3) as [b w4].
    cbn [fst snd] in *.
    intros [-> ->]%andb_true_iff [Hin|Hin]%in_app_or;
      apply in_map_iff in Hin as (u' & Heq & Hu); inversion Heq; subst.
    + apply H3. apply caches_open_stored.
      apply H1; [apply caches_open_has|done..].
    + apply H2; [apply caches_open_has|done..].
  - intros Hok (u' & Heq & Hu)%in_map_iff. inversion Heq; subst.
    apply cache_addAll_stores; [apply caches_open_has|done..].
Qed.

(** C6, witness: v2 installed online has the stlite script in
    [stlite-cache-v1]. *)
Lemma install_populates_witness :
  fst (install v2 Scenario.online Scenario.fresh) = true ∧
  In ("stlite-cache-v1",
      "https://cdn.jsdelivr.net/npm/@stlite/mountable@0.42.3/build/stlite.js")
     (precached v2) ∧
  stored (caches (snd (install v2 Scenario.online Scenario.fresh)))
    "stlite-cache-v1"
    (href (resolve Scenario.online
       "https://cdn.jsdelivr.net/npm/@stlite/mountable@0.42.3/build/stlite.js")).
Proof.
  assert (Hin : In ("stlite-cache-v1",
      "https://cdn.jsdelivr.net/npm/@stlite/mountable@0.42.3/build/stlite.js")
     (precached v2)) by (simpl; auto 10).
  split; [reflexivity|]. split; [exact Hin|].
  exact (install_populates v2 Scenario.online Scenario.fresh _ _ eq_refl Hin).
Defined.

(** ** The activate handlers *)

Section Activation.

Variable stale : string → bool.

(** Deleting a list of names one by one is one filter. *)
Lemma delete_all_filter (names : list string) (cs : CacheStorage) :
  fold_left (λ acc name, caches_delete name acc) names cs =
  List.filter (λ nc, negb (existsb (String.eqb (fst nc)) names)) cs.
Proof.
  revert cs. induction names as [|n names IH]; intros cs; simpl.
  - induction cs as [|nc cs IHcs]; simpl; congruence.
  - rewrite IH. unfold caches_delete.
    induction cs as [|nc cs IHcs]; simpl; [done|].
    destruct (String.eqb (fst nc) n); simpl; [done|].
    destruct (existsb _ names); simpl; congruence.
Qed.

Lemma existsb_filter_keys (cs : CacheStorage)
    (nc : string * gmap string Response) :
  In nc cs →
  existsb (String.eqb (fst nc)) (List.filter stale (caches_keys cs)) =
  stale (fst nc).
Proof.
  intros Hin. destruct (stale (fst nc)) eqn:Hs.
  - apply existsb_exists. exists (fst nc). split; [|apply String.eqb_refl].
    apply filter_In. split; [|done]. by apply in_map.
  - apply not_true_iff_false. intros (n & Hn & Heq)%existsb_exists.
    apply String.eqb_eq in Heq. subst n.
    apply filter_In in Hn as [_ Hn]. congruence.
Qed.

Lemma delete_stale_filter (cs : CacheStorage) :
  fold_left (λ acc name, caches_delete name acc)
            (List.filter stale (caches_keys cs)) cs =
  List.filter (λ nc, negb (stale (fst nc))) cs.
Proof.
  rewrite delete_all_filter. apply filter_ext_in.
  intros nc Hin. by rewrite existsb_filter_keys.
Qed.

End Activation.

(** C4 (amended).  Activation leaves exactly the caches whose names pass
    the filter of the worker, in their order and with their entries, and
    deletes the others.  The caches of the current version always pass;
    in v1 and v3 nothing else does; in v2 every name starting with
    ["ai-learning"] or ["stlite"] does. *)
Theorem activate_evicts (v : Variant) (cs : CacheStorage) :
  activate v cs = List.filter (λ nc, survives v (fst nc)) cs ∧
  (∀ name, In name (current_caches v) → survives v name = true) ∧
  (v ≠ v2 → ∀ name, survives v name = true → In name (current_caches v)).
Proof.
  split; [|split].
  - destruct v; unfold activate, V1.activate, V2.activate, V3.activate;
      rewrite delete_stale_filter; apply filter_ext; intros [n c];
      unfold survives, V1.stale, V2.stale, V3.stale, current_caches; simpl fst;
      cbn [existsb].
    + rewrite orb_false_r. by rewrite negb_andb, !negb_involutive.
    + by rewrite negb_andb, !negb_involutive.
    + rewrite orb_false_r. by rewrite negb_involutive.
  - destruct v; simpl; intros name Hin;
      repeat (destruct Hin as [<-|Hin]; [reflexivity|]); destruct Hin.
  - destruct v; [|done|]; intros _ name; unfold survives, current_caches;
      cbn [existsb]; rewrite orb_false_r.
    + intros [->%String.eqb_eq | ->%String.eqb_eq]%orb_true_iff; simpl; auto.
    + intros ->%String.eqb_eq. simpl; auto.
Qed.

(** C4, witness: v2 keeps its stlite cache. *)
Lemma activate_evicts_witness :
  In "stlite-cache-v1" (current_caches v2) ∧
  survives v2 "stlite-cache-v1" = true.
Proof.
  assert (Hin : In "stlite-cache-v1" (current_caches v2)) by (simpl; auto).
  split; [exact Hin|].
  exact (proj1 (proj2 (activate_evicts v2 [])) _ Hin).
Defined.

(** C4, as stated, fails: the cache [ai-learning-v1] is none of the
    caches of v2 and is still there after v2 activates. *)
Lemma activate_keeps_other_version :
  ¬ (∀ name c,
       In (name, c) (activate v2 Scenario.other_versions) →
       In name (current_caches v2)).
Proof.
  intros H.
  specialize (H "ai-learning-v1" _ (or_introl eq_refl)).
  cbv [current_caches In V2.CACHE_NAME V2.STLITE_CACHE] in H.
  destruct H as [H|[H|[]]]; discriminate.
Qed.

(** What v2 leaves of [Scenario.other_versions]: [static-v1] is gone. *)
Lemma activate_v2_other_versions :
  caches_keys (activate v2 Scenario.other_versions) =
    ["ai-learning-v1"; "ai-learning-v2"].
Proof. reflexivity. Qed.

(** ** Background sync (v1) *)

Section SyncFacts.

Variable JSON : Type.
Variable JSON_parse : string → option JSON.
Variable JSON_stringify : JSON → string.
Variable truthy : JSON → bool.
Variable length_gt_0 : JSON → bool.

Local Abbreviation sync :=
  (V1.sync_handler JSON JSON_parse JSON_stringify truthy length_gt_0).
Local Abbreviation queue := (V1.getSyncQueue JSON JSON_parse).
Local Abbreviation post := (V1.sync_request JSON JSON_stringify).

(** Another tag starts nothing. *)
Lemma sync_other_tag env tag ls w :
  tag ≠ "sync-progress" → sync env tag ls w = (ls, w).
Proof.
  intros Hne. unfold V1.sync_handler.
  by apply String.eqb_neq in Hne as ->.
Qed.


End SyncFacts.


(** ** More on the fetch handlers: what one event does to the world *)

Lemma cache_put_keys name k r cs :
  caches_keys (cache_put name k r cs) = caches_keys cs.
Proof.
  unfold caches_keys, cache_put. rewrite map_map. apply map_ext.
  intros [n c]. simpl. by destruct (String.eqb n name).
Qed.

Lemma cache_put_match_other name k r cs k' :
  k ≠ k' → caches_match (cache_put name k r cs) k' = caches_match cs k'.
Proof.
  intros Hne. induction cs as [|[n c] cs IH]; simpl; [done|].
  destruct (String.eqb n name); simpl.
  - rewrite lookup_insert_ne by done. by rewrite IH.
  - by rewrite IH.
Qed.

Lemma cache_put_entry_other name k r cs n k' r' :
  k ≠ k' → entry cs n k' r' → entry (cache_put name k r cs) n k' r'.
Proof.
  intros Hne (c & Hin & Hk). unfold entry, cache_put.
  destruct (String.eqb n name) eqn:En.
  - exists (<[k:=r]> c). split; [|by rewrite lookup_insert_ne].
    apply in_map_iff. exists (n, c). simpl. by rewrite En.
  - exists c. split; [|done].
    apply in_map_iff. exists (n, c). simpl. by rewrite En.
Qed.

Lemma caches_open_keys_NoDup name cs :
  List.NoDup (caches_keys cs) → List.NoDup (caches_keys (caches_open name cs)).
Proof.
  intros Hnd. unfold caches_open. destruct (caches_has name cs) eqn:Hhas; [done|].
  unfold caches_keys. rewrite map_app. apply List.NoDup_app; [done|..].
  - simpl. constructor; [tauto|constructor].
  - intros a Ha [<-|[]]. simpl in Hhas.
    apply not_true_iff_false in Hhas. apply Hhas.
    apply existsb_exists. exists name. split; [done|apply String.eqb_refl].
Qed.

(** The world a fetch event leaves, for an intercepted request. *)
Lemma fetch_handler_world (v : Variant) env request w :
  intercepts v request = true →
  snd (fetch_handler v env request w) =
    match caches_match (caches w) (request_url request), refreshes v request with
    | Some _, false => w
    | _, _ =>
        {| caches :=
             match network env request with
             | Some response =>
                 if ok response
                 then cache_put (write_cache v request) (request_url request)
                        response (caches_open (write_cache v request) (caches w))
                 else caches w
             | None => caches w
             end;
           netlog := netlog w ++ [request] |}
    end.
Proof.
  intros H.
  destruct v; pass_guards H; unfold refreshes, write_cache;
    try destruct (V2.is_cdn (url request)); cbn [negb];
    destruct (caches_match (caches w) (request_url request));
    destruct (network env request) as [response|];
    try destruct (ok response);
    try destruct (accept request) as [a|];
    try destruct (includes a "text/html");
    reflexivity.
Qed.

Lemma fetch_handler_world_skip (v : Variant) env request w :
  intercepts v request = false → snd (fetch_handler v env request w) = w.
Proof. intros H. by rewrite fetch_handler_skip. Qed.

(** Cache Storage after a fetch event: as before, or with one ok response
    of the network put under the URL of the request. *)
Lemma fetch_handler_caches (v : Variant) env request w :
  caches (snd (fetch_handler v env request w)) = caches w ∨
  ∃ response,
    network env request = Some response ∧ ok response = true ∧
    (caches_match (caches w) (request_url request) = None ∨
     refreshes v request = true) ∧
    caches (snd (fetch_handler v env request w)) =
      cache_put (write_cache v request) (request_url request) response
        (caches_open (write_cache v request) (caches w)).
Proof.
  destruct (intercepts v request) eqn:H.
  - rewrite fetch_handler_world by done.
    destruct (caches_match (caches w) (request_url request)) as [c|] eqn:Hm;
      destruct (refreshes v request) eqn:Href; auto;
      cbn [caches]; destruct (network env request) as [response|]; auto;
      destruct (ok response) eqn:Hok; auto;
      right; exists response; auto.
  - rewrite fetch_handler_world_skip by done. auto.
Qed.

(** X1.  A fetch handler contacts the network exactly when it intercepts
    the request and either finds it in no cache or is a worker that
    refreshes cached entries; what it sends is the intercepted request,
    once, and nothing else. *)
Theorem fetch_network_use (v : Variant) env request w :
  netlog (snd (fetch_handler v env request w)) =
    if intercepts v request &&
       match caches_match (caches w) (request_url request) with
       | Some _ => refreshes v request
       | None => true
       end
    then netlog w ++ [request]
    else netlog w.
Proof.
  destruct (intercepts v request) eqn:H; cbn [andb].
  - rewrite fetch_handler_world by done.
    destruct (caches_match (caches w) (request_url request)) as [c|];
      destruct (refreshes v request); try reflexivity.
  - by rewrite fetch_handler_world_skip.
Qed.

(** X2.  A fetch event touches nothing stored under another URL: for
    every key other than the URL of the request, [caches.match] finds
    what it found before and every cache holds the entries it held. *)
Theorem fetch_frame (v : Variant) env request w k :
  k ≠ request_url request →
  caches_match (caches (snd (fetch_handler v env request w))) k =
    caches_match (caches w) k ∧
  (∀ n r, entry (caches (snd (fetch_handler v env request w))) n k r ↔
          entry (caches w) n k r).
Proof.
  intros Hne.
  destruct (fetch_handler_caches v env request w)
    as [->|(response & _ & _ & _ & ->)]; [done|].
  split.
  - rewrite cache_put_match_other by done. apply caches_open_match.
  - intros n r. split.
    + intros [(_ & -> & _)|He]%cache_put_entry; [done|].
      by apply caches_open_entry in He.
    + intros He. apply cache_put_entry_other; [done|].
      by apply caches_open_entry.
Qed.

(** X3.  The only entry a fetch event can add is the ok response of the
    network to the request itself, under the URL of the request, in the
    cache the worker writes to. *)
Theorem fetch_writes (v : Variant) env request w n k r :
  entry (caches (snd (fetch_handler v env request w))) n k r →
  entry (caches w) n k r ∨
  (n = write_cache v request ∧ k = request_url request ∧
   network env request = Some r ∧ ok r = true).
Proof.
  destruct (fetch_handler_caches v env request w)
    as [->|(response & Hnet & Hok & _ & ->)]; [auto|].
  intros [(-> & -> & ->)|He]%cache_put_entry; [auto|].
  left. by apply caches_open_entry in He.
Qed.

Lemma fetch_handler_keys_NoDup (v : Variant) env request w :
  List.NoDup (caches_keys (caches w)) →
  List.NoDup (caches_keys (caches (snd (fetch_handler v env request w)))).
Proof.
  intros Hnd.
  destruct (fetch_handler_caches v env request w)
    as [->|(response & _ & _ & _ & ->)]; [done|].
  rewrite cache_put_keys. by apply caches_open_keys_NoDup.
Qed.

(** X4.  Fetch events keep the names of Cache Storage distinct:
    [caches.open] creates a cache only under a name not yet there. *)
Theorem fetch_keeps_names_distinct (v : Variant) events w :
  List.NoDup (caches_keys (caches w)) →
  List.NoDup (caches_keys (caches (run_fetches v events w))).
Proof.
  revert w. induction events as [|[env request] events IH]; intros w Hnd; simpl.
  - done.
  - apply IH. by apply fetch_handler_keys_NoDup.
Qed.

(** X5.  What was fetched once is served again: after a miss answered
    by the network with an ok response, the next fetch event for the same
    request gets that response, whatever the network does then. *)
Theorem fetched_once_served_again (v : Variant) env env' request w response :
  intercepts v request = true →
  caches_match (caches w) (request_url request) = None →
  network env request = Some response →
  ok response = true →
  fst (fetch_handler v env' request (snd (fetch_handler v env request w)))
    = Some (Fulfilled (Some response)).
Proof.
  intros H Hmiss Hnet Hok. apply cache_hit_response; [done|].
  rewrite fetch_handler_world by done. rewrite Hmiss, Hnet, Hok.
  cbn [caches]. by apply open_put_match_miss.
Qed.

Lemma unrefreshed_match_stays (v : Variant) env request w k r :
  refreshes v request = false →
  caches_match (caches w) k = Some r →
  caches_match (caches (snd (fetch_handler v env request w))) k = Some r.
Proof.
  intros Href Hk.
  destruct (fetch_handler_caches v env request w)
    as [->|(response & _ & _ & [Hmiss|Hr] & ->)]; [done| |congruence].
  rewrite cache_put_match_other by congruence.
  by rewrite caches_open_match.
Qed.

(** X6.  Without a refreshing branch a cached response is never
    replaced: through any run of events that take no refreshing branch
    (every event of v3, every CDN request of v2), [caches.match] keeps
    finding the response it found at the start. *)
Theorem unrefreshed_entries_stay (v : Variant) events w k r :
  Forall (λ e, refreshes v (snd e) = false) events →
  caches_match (caches w) k = Some r →
  caches_match (caches (run_fetches v events w)) k = Some r.
Proof.
  intros Hall. revert w.
  induction Hall as [|[env request] events Href _ IH]; intros w Hk; simpl.
  - done.
  - apply IH. by apply unrefreshed_match_stays.
Qed.

Lemma fetch_handler_stored (v : Variant) env request w n k :
  stored (caches w) n k →
  stored (caches (snd (fetch_handler v env request w))) n k.
Proof.
  intros Hs.
  destruct (fetch_handler_caches v env request w)
    as [->|(response & _ & _ & _ & ->)]; [done|].
  apply cache_put_stored. by apply caches_open_stored.
Qed.

(** X7.  Fetch handlers never evict: a key stored in a cache stays
    stored in that cache through any run of fetch events. *)
Theorem fetch_never_evicts (v : Variant) events w n k :
  stored (caches w) n k →
  stored (caches (run_fetches v events w)) n k.
Proof.
  revert w. induction events as [|[env request] events IH]; intros w Hs; simpl.
  - done.
  - apply IH. by apply fetch_handler_stored.
Qed.

Lemma caches_match_app cs1 cs2 k :
  caches_match (cs1 ++ cs2) k =
    match caches_match cs1 k with
    | Some r => Some r
    | None => caches_match cs2 k
    end.
Proof.
  induction cs1 as [|[n c] cs1 IH]; simpl; [done|].
  by destruct (c !! k).
Qed.

Lemma caches_open_split name pre x post :
  ∃ post', caches_open name (pre ++ x :: post) = pre ++ x :: post'.
Proof.
  unfold caches_open. destruct (caches_has name _).
  - by exists post.
  - exists (post ++ [(name, ∅)]). by rewrite <- app_assoc.
Qed.

Lemma cache_put_match_shadowed name k r pre n c post cached :
  caches_match pre k = None →
  ¬ In name (caches_keys pre) →
  n ≠ name →
  c !! k = Some cached →
  caches_match (cache_put name k r (pre ++ (n, c) :: post)) k = Some cached.
Proof.
  intros Hpre Hnot Hn Hc.
  induction pre as [|[n0 c0] pre IH]; simpl in *.
  - apply String.eqb_neq in Hn as ->. simpl. by rewrite Hc.
  - destruct (c0 !! k) eqn:Hc0; [done|].
    destruct (String.eqb n0 name) eqn:En.
    + apply String.eqb_eq in En. tauto.
    + simpl. rewrite Hc0. apply IH; [done|tauto].
Qed.

(** X8.  A refresh is invisible when an earlier cache holds the entry:
    if the first cache holding the URL is not the cache the worker
    writes to, and no cache before it is, then after the event, whatever
    the network answered, [caches.match] still finds the old response. *)
Theorem refresh_shadowed (v : Variant) env request w pre n c post cached :
  caches w = pre ++ (n, c) :: post →
  caches_match pre (request_url request) = None →
  c !! request_url request = Some cached →
  n ≠ write_cache v request →
  ¬ In (write_cache v request) (caches_keys pre) →
  caches_match (caches (snd (fetch_handler v env request w)))
    (request_url request) = Some cached.
Proof.
  intros Hw Hpre Hc Hn Hnot.
  assert (Hhit : caches_match (caches w) (request_url request) = Some cached).
  { rewrite Hw, caches_match_app, Hpre. simpl. by rewrite Hc. }
  destruct (fetch_handler_caches v env request w)
    as [->|(response & _ & _ & _ & ->)]; [done|].
  rewrite Hw.
  destruct (caches_open_split (write_cache v request) pre (n, c) post)
    as [post' ->].
  by apply cache_put_match_shadowed.
Qed.

Lemma cache_put_match_first name k r pre c post :
  caches_match pre k = None →
  caches_match (cache_put name k r (pre ++ (name, c) :: post)) k = Some r.
Proof.
  intros Hpre. induction pre as [|[n0 c0] pre IH]; simpl in *.
  - rewrite String.eqb_refl. simpl. by rewrite lookup_insert_eq.
  - destruct (c0 !! k) eqn:Hc0; [done|].
    destruct (String.eqb n0 name); simpl.
    + by rewrite lookup_insert_eq.
    + rewrite Hc0. by apply IH.
Qed.

(** X9.  A refresh is visible when the cache the worker writes to comes
    first: if no cache before it holds the URL, then after an event of a
    refreshing branch with an ok network response [caches.match] finds
    the new response. *)
Theorem refresh_visible (v : Variant) env request w pre c post fresh :
  intercepts v request = true →
  refreshes v request = true →
  caches w = pre ++ (write_cache v request, c) :: post →
  caches_match pre (request_url request) = None →
  network env request = Some fresh →
  ok fresh = true →
  caches_match (caches (snd (fetch_handler v env request w)))
    (request_url request) = Some fresh.
Proof.
  intros H Href Hw Hpre Hnet Hok.
  rewrite fetch_handler_world by done. rewrite Href, Hnet, Hok.
  assert (Hshape : caches_match
    (cache_put (write_cache v request) (request_url request) fresh
       (caches_open (write_cache v request) (caches w)))
    (request_url request) = Some fresh).
  { rewrite Hw.
    destruct (caches_open_split (write_cache v request) pre
                (write_cache v request, c) post) as [post' ->].
    by apply cache_put_match_first. }
  by destruct (caches_match (caches w) (request_url request)).
Qed.

(** ** More on installation *)

Section AddAllMore.

Variable env : Env.

Lemma put_all_netlog name xs w :
  netlog (snd (put_all name xs w)) = netlog w.
Proof.
  revert w. induction xs as [|[r [resp|]] xs IH]; intros w; simpl; auto.
  unfold mbind, SW_bind, on_caches. by rewrite IH.
Qed.

Lemma put_all_entry name xs w n k r :
  entry (caches (snd (put_all name xs w))) n k r →
  entry (caches w) n k r ∨
  ∃ req, In (req, Some r) xs ∧ n = name ∧ k = request_url req.
Proof.
  revert w. induction xs as [|[r0 [resp0|]] xs IH]; intros w; simpl.
  - auto.
  - unfold mbind, SW_bind, on_caches. intros [He|(req & Hin & -> & ->)]%IH.
    + simpl in He. apply cache_put_entry in He as [(-> & -> & ->)|He]; [|auto].
      right. exists r0. auto.
    + right. exists req. auto.
  - intros [He|(req & Hin & -> & ->)]%IH; [auto|].
    right. exists req. auto.
Qed.

Lemma cache_addAll_netlog name urls w :
  netlog (snd (cache_addAll env name urls w)) =
    netlog w ++ map (Request_of env) urls.
Proof.
  unfold cache_addAll, mbind, SW_bind. rewrite fetch_all_spec.
  destruct (forallb _ _); [|done].
  destruct (put_all name _ _) as [[] w'] eqn:E. simpl.
  change w' with (snd (tt, w')). rewrite <- E. by rewrite put_all_netlog.
Qed.

Lemma cache_addAll_rejected name urls w :
  fst (cache_addAll env name urls w) = false →
  caches (snd (cache_addAll env name urls w)) = caches w.
Proof.
  unfold cache_addAll, mbind, SW_bind. rewrite fetch_all_spec.
  destruct (forallb _ _); [|done].
  by destruct (put_all name _ _) as [[] w'].
Qed.

Lemma cache_addAll_fulfilled name urls w u :
  fst (cache_addAll env name urls w) = true →
  In u urls →
  ∃ resp, network env (Request_of env u) = Some resp ∧ ok resp = true.
Proof.
  unfold cache_addAll, mbind, SW_bind. rewrite fetch_all_spec.
  destruct (forallb _ _) eqn:Hall.
  - intros _ Hu. rewrite forallb_forall in Hall.
    specialize (Hall (Request_of env u, network env (Request_of env u))).
    unfold fetched_ok in Hall. simpl in Hall.
    assert (Hin : In (Request_of env u, network env (Request_of env u))
              (map (λ r, (r, network env r)) (map (Request_of env) urls))).
    { apply in_map_iff. exists (Request_of env u). split; [done|].
      by apply in_map. }
    destruct (network env (Request_of env u)) as [resp|].
    + exists resp. split; [done|]. by apply Hall.
    + by specialize (Hall Hin).
  - done.
Qed.

Lemma cache_addAll_entry name urls w n k r :
  entry (caches (snd (cache_addAll env name urls w))) n k r →
  entry (caches w) n k r ∨
  ∃ u, In u urls ∧ n = name ∧ k = href (resolve env u) ∧
       network env (Request_of env u) = Some r ∧ ok r = true.
Proof.
  unfold cache_addAll, mbind, SW_bind. rewrite fetch_all_spec.
  destruct (forallb _ _) eqn:Hall; [|auto].
  destruct (put_all name _ _) as [[] w'] eqn:E. simpl.
  change w' with (snd (tt, w')). rewrite <- E.
  intros [He|(req & Hin & -> & ->)]%put_all_entry; [auto|].
  right. rewrite forallb_forall in Hall. specialize (Hall _ Hin).
  apply in_map_iff in Hin as (req' & Heq & Hin). inversion Heq; subst.
  apply in_map_iff in Hin as (u & <- & Hu).
  exists u. unfold fetched_ok in Hall. simpl in Hall.
  repeat split; try done. 
Qed.

Lemma put_all_keys name xs w :
  caches_keys (caches (snd (put_all name xs w))) = caches_keys (caches w).
Proof.
  revert w. induction xs as [|[r [resp|]] xs IH]; intros w; simpl; auto.
  unfold mbind, SW_bind, on_caches. rewrite IH. simpl. apply cache_put_keys.
Qed.

Lemma cache_addAll_keys name urls w :
  caches_keys (caches (snd (cache_addAll env name urls w))) =
  caches_keys (caches w).
Proof.
  unfold cache_addAll, mbind, SW_bind. rewrite fetch_all_spec.
  destruct (forallb _ _); [|done].
  destruct (put_all name _ _) as [[] w'] eqn:E. simpl.
  change w' with (snd (tt, w')). rewrite <- E. by rewrite put_all_keys.
Qed.

End AddAllMore.

Lemma install_v1 env w :
  V1.install env w =
    cache_addAll env V1.STATIC_CACHE V1.STATIC_ASSETS
      (snd (on_caches (caches_open V1.STATIC_CACHE) w)).
Proof. reflexivity. Qed.

Lemma install_v3 env w :
  V3.install env w =
    cache_addAll env V3.CACHE_NAME V3.STATIC_ASSETS
      (snd (on_caches (caches_open V3.CACHE_NAME) w)).
Proof. reflexivity. Qed.

Lemma install_v2 env w :
  V2.install env w =
    let r1 := cache_addAll env V2.CACHE_NAME V2.STATIC_ASSETS
                (snd (on_caches (caches_open V2.CACHE_NAME) w)) in
    let r2 := cache_addAll env V2.STLITE_CACHE V2.STLITE_RESOURCES
                (snd (on_caches (caches_open V2.STLITE_CACHE) (snd r1))) in
    (fst r1 && fst r2, snd r2).
Proof.
  unfold V2.install, mbind, SW_bind, mret, SW_ret, on_caches. cbn zeta.
  cbn [fst snd].
  destruct (cache_addAll env V2.CACHE_NAME V2.STATIC_ASSETS _) as [a w2].
  cbn [fst snd].
  by destruct (cache_addAll env V2.STLITE_CACHE V2.STLITE_RESOURCES _) as [b w4].
Qed.

Ltac unfold_install v :=
  destruct v; unfold install, precached;
  rewrite ?install_v1, ?install_v2, ?install_v3; cbn zeta; cbn [fst snd].

(** X10.  Installation is fulfilled exactly when the network serves
    every precached URL with an ok response: one failing or non-ok asset
    rejects the install. *)
Theorem install_iff (v : Variant) env w :
  fst (install v env w) = true ↔
  ∀ name u, In (name, u) (precached v) →
    ∃ resp, network env (Request_of env u) = Some resp ∧ ok resp = true.
Proof.
  split; [|apply install_completes].
  unfold_install v.
  - intros Hok name u (u' & Heq & Hu)%in_map_iff. inversion Heq; subst.
    exact (cache_addAll_fulfilled env _ _ _ u Hok Hu).
  - intros [H1 H2]%andb_true_iff name u [Hin|Hin]%in_app_or;
      apply in_map_iff in Hin as (u' & Heq & Hu); inversion Heq; subst.
    + exact (cache_addAll_fulfilled env _ _ _ u H1 Hu).
    + exact (cache_addAll_fulfilled env _ _ _ u H2 Hu).
  - intros Hok name u (u' & Heq & Hu)%in_map_iff. inversion Heq; subst.
    exact (cache_addAll_fulfilled env _ _ _ u Hok Hu).
Qed.

Lemma map_snd_pair {A B} (a : A) (l : list B) : map snd (map (pair a) l) = l.
Proof. induction l as [|x l IH]; simpl; congruence. Qed.

(** X11.  Fulfilled or not, an install handler sends one GET for every
    listed URL (in v2 for STATIC_ASSETS and for STLITE_RESOURCES, also
    when the first list failed) and nothing else. *)
Theorem install_requests (v : Variant) env w :
  netlog (snd (install v env w)) =
    netlog w ++ map (Request_of env) (map snd (precached v)).
Proof.
  unfold_install v; rewrite ?map_app, ?map_snd_pair, ?cache_addAll_netlog;
    cbn [snd on_caches netlog]; rewrite ?cache_addAll_netlog;
    cbn [snd on_caches netlog]; by rewrite ?map_app, ?app_assoc.
Qed.

(** X12.  A rejected install of v1 or v3 stores nothing: Cache Storage
    holds the entries it held before (the cache itself may have been
    created, empty). *)
Theorem install_rejected_stores_nothing (v : Variant) env w n k r :
  v ≠ v2 →
  fst (install v env w) = false →
  entry (caches (snd (install v env w))) n k r ↔ entry (caches w) n k r.
Proof.
  intros Hv. unfold_install v; [|done|]; intros Hrej;
    rewrite cache_addAll_rejected by done; cbn [snd on_caches caches];
    apply caches_open_entry.
Qed.

(** X13.  In v2 a rejected install can leave a filled cache: when the
    network serves every URL of STATIC_ASSETS, each is stored in
    [ai-learning-v2] whether or not the stlite resources could be fetched
    ([Promise.all] does not undo the branch that succeeded). *)
Theorem v2_install_keeps_partial_result env w u :
  (∀ u', In u' V2.STATIC_ASSETS →
     ∃ resp, network env (Request_of env u') = Some resp ∧ ok resp = true) →
  In u V2.STATIC_ASSETS →
  stored (caches (snd (V2.install env w))) V2.CACHE_NAME (href (resolve env u)).
Proof.
  intros Hserved Hu. rewrite install_v2. cbn zeta. cbn [snd].
  apply cache_addAll_stored. cbn [snd on_caches caches].
  apply caches_open_stored.
  apply cache_addAll_stores; [apply caches_open_has| |done].
  by apply cache_addAll_served.
Qed.

(** X14.  The only entries an install handler adds are ok responses of
    the network to the listed URLs, each under its URL in the cache the
    list belongs to. *)
Theorem install_stores_listed (v : Variant) env w n k r :
  entry (caches (snd (install v env w))) n k r →
  entry (caches w) n k r ∨
  ∃ u, In (n, u) (precached v) ∧ k = href (resolve env u) ∧
       network env (Request_of env u) = Some r ∧ ok r = true.
Proof.
  unfold_install v.
  - intros [He|(u & Hu & -> & -> & Hnet & Hok)]%cache_addAll_entry.
    + left. by apply caches_open_entry in He.
    + right. exists u. repeat split; try done. by apply in_map.
  - intros [He|(u & Hu & -> & -> & Hnet & Hok)]%cache_addAll_entry.
    + cbn [snd on_caches caches] in He. apply caches_open_entry in He.
      apply cache_addAll_entry in He
        as [He|(u & Hu & -> & -> & Hnet & Hok)].
      * left. by apply caches_open_entry in He.
      * right. exists u. repeat split; try done.
        apply in_or_app. left. by apply in_map.
    + right. exists u. repeat split; try done.
      apply in_or_app. right. by apply in_map.
  - intros [He|(u & Hu & -> & -> & Hnet & Hok)]%cache_addAll_entry.
    + left. by apply caches_open_entry in He.
    + right. exists u. repeat split; try done. by apply in_map.
Qed.

(** ** More on activation, and the life cycle as a whole *)

Lemma activate_filter (v : Variant) :
  ∃ keep : string → bool,
    (∀ cs, activate v cs = List.filter (λ nc, keep (fst nc)) cs) ∧
    (∀ name, In name (current_caches v) → keep name = true).
Proof.
  destruct v.
  - exists (λ n, negb (V1.stale n)). split.
    + intros cs. apply delete_stale_filter.
    + simpl. intros name [<-|[<-|[]]]; reflexivity.
  - exists (λ n, negb (V2.stale n)). split.
    + intros cs. apply delete_stale_filter.
    + simpl. intros name [<-|[<-|[]]]; reflexivity.
  - exists (λ n, negb (V3.stale n)). split.
    + intros cs. apply delete_stale_filter.
    + simpl. intros name [<-|[]]; reflexivity.
Qed.

Lemma filter_idem {A} (f : A → bool) (l : list A) :
  List.filter f (List.filter f l) = List.filter f l.
Proof.
  induction l as [|x l IH]; simpl; [done|].
  destruct (f x) eqn:Hx; simpl; [|done]. by rewrite Hx, IH.
Qed.

Lemma filter_keys_NoDup (f : string → bool) (cs : CacheStorage) :
  List.NoDup (caches_keys cs) →
  List.NoDup (caches_keys (List.filter (λ nc, f (fst nc)) cs)).
Proof.
  unfold caches_keys. induction cs as [|[n c] cs IH]; simpl; [done|].
  intros [Hn Hnd]%NoDup_cons_iff. destruct (f n); simpl; [|by apply IH].
  constructor; [|by apply IH].
  intros (nc & Heq & Hin)%in_map_iff. apply Hn.
  apply filter_In in Hin as [Hin _]. apply in_map_iff. by exists nc.
Qed.

Lemma stored_match cs n k : stored cs n k → ∃ r, caches_match cs k = Some r.
Proof.
  intros (r & c & Hin & Hk). induction cs as [|[n0 c0] cs IH]; simpl.
  - destruct Hin.
  - destruct (c0 !! k) as [r0|] eqn:Hc0; [by exists r0|].
    destruct Hin as [Heq|Hin]; [|by apply IH].
    inversion Heq; subst. congruence.
Qed.

Lemma precached_current (v : Variant) name u :
  In (name, u) (precached v) → In name (current_caches v).
Proof.
  destruct v; unfold precached, current_caches.
  - intros (u' & Heq & _)%in_map_iff. inversion Heq. by left.
  - intros [Hin|Hin]%in_app_or;
      apply in_map_iff in Hin as (u' & Heq & _); inversion Heq;
      [by left|right; by left].
  - intros (u' & Heq & _)%in_map_iff. inversion Heq. by left.
Qed.

Lemma install_populates_stored (v : Variant) env w name u :
  fst (install v env w) = true →
  In (name, u) (precached v) →
  stored (caches (snd (install v env w))) name (href (resolve env u)).
Proof.
  unfold_install v.
  - intros Hok (u' & Heq & Hu)%in_map_iff. inversion Heq; subst.
    apply cache_addAll_stores; [apply caches_open_has|done..].
  - intros [H1 H2]%andb_true_iff [Hin|Hin]%in_app_or;
      apply in_map_iff in Hin as (u' & Heq & Hu); inversion Heq; subst.
    + apply cache_addAll_stored. cbn [snd on_caches caches].
      apply caches_open_stored.
      apply cache_addAll_stores; [apply caches_open_has|done..].
    + apply cache_addAll_stores; [apply caches_open_has|done..].
  - intros Hok (u' & Heq & Hu)%in_map_iff. inversion Heq; subst.
    apply cache_addAll_stores; [apply caches_open_has|done..].
Qed.

(** X15.  Activating twice is activating once. *)
Theorem activate_idempotent (v : Variant) (cs : CacheStorage) :
  activate v (activate v cs) = activate v cs.
Proof.
  destruct (activate_filter v) as (keep & Hfilter & _).
  rewrite !Hfilter. apply filter_idem.
Qed.

(** X16.  Install and activate keep the cache names distinct. *)
Theorem lifecycle_keeps_names_distinct (v : Variant) env w :
  List.NoDup (caches_keys (caches w)) →
  List.NoDup (caches_keys (caches (snd (install v env w)))) ∧
  List.NoDup (caches_keys (activate v (caches w))).
Proof.
  intros Hnd. split.
  - unfold_install v; rewrite ?cache_addAll_keys; cbn [snd on_caches caches];
      repeat apply caches_open_keys_NoDup;
      rewrite ?cache_addAll_keys; cbn [snd on_caches caches];
      repeat apply caches_open_keys_NoDup; done.
  - destruct (activate_filter v) as (keep & Hfilter & _).
    rewrite Hfilter. by apply filter_keys_NoDup.
Qed.

Lemma caches_match_entry cs k r :
  caches_match cs k = Some r → ∃ n, entry cs n k r.
Proof.
  induction cs as [|[n0 c0] cs IH]; simpl; [done|].
  destruct (c0 !! k) as [r0|] eqn:Hc0.
  - intros [= <-]. exists n0, c0. split; [by left|done].
  - intros (n & c & Hin & Hk)%IH. exists n, c. split; [by right|done].
Qed.

Lemma activate_entry (v : Variant) cs n k r :
  entry (activate v cs) n k r → entry cs n k r.
Proof.
  destruct (activate_filter v) as (keep & Hfilter & _). rewrite Hfilter.
  intros (c & Hin & Hk). apply filter_In in Hin as [Hin _]. by exists c.
Qed.

(** Where an entry found after an install comes from. *)
Lemma install_entry_origin (v : Variant) env w n k r :
  entry (caches (snd (install v env w))) n k r →
  entry (caches w) n k r ∨
  ∃ u, In (n, u) (precached v) ∧ k = href (resolve env u) ∧
       network env (Request_of env u) = Some r ∧ ok r = true.
Proof.
  unfold_install v.
  - intros [He|(u & Hu & -> & -> & Hnet & Hok)]%cache_addAll_entry.
    + left. by apply caches_open_entry in He.
    + right. exists u. repeat split; try done. by apply in_map.
  - intros [He|(u & Hu & -> & -> & Hnet & Hok)]%cache_addAll_entry.
    + cbn [snd on_caches caches] in He. apply caches_open_entry in He.
      apply cache_addAll_entry in He
        as [He|(u & Hu & -> & -> & Hnet & Hok)].
      * left. by apply caches_open_entry in He.
      * right. exists u. repeat split; try done.
        apply in_or_app. left. by apply in_map.
    + right. exists u. repeat split; try done.
      apply in_or_app. right. by apply in_map.
  - intros [He|(u & Hu & -> & -> & Hnet & Hok)]%cache_addAll_entry.
    + left. by apply caches_open_entry in He.
    + right. exists u. repeat split; try done. by apply in_map.
Qed.

(** X17.  Offline after the first load: once a worker has installed and
    activated, every GET for a precached http(s) URL is answered,
    whatever the network does, with the response [caches.match] finds
    for it; and that response was in Cache Storage before the install or
    is the ok response the network gave the install for a listed URL of
    that address. *)
Theorem offline_after_install (v : Variant) env env' w log request name u :
  fst (install v env w) = true →
  In (name, u) (precached v) →
  method request = "GET" →
  url request = resolve env u →
  startsWith (protocol (resolve env u)) "http" = true →
  ∃ r,
    caches_match (activate v (caches (snd (install v env w))))
      (request_url request) = Some r ∧
    fst (fetch_handler v env' request
           {| caches := activate v (caches (snd (install v env w)));
              netlog := log |})
      = Some (Fulfilled (Some r)) ∧
    ∃ n,
      entry (caches w) n (request_url request) r ∨
      ∃ u', In (n, u') (precached v) ∧
            request_url request = href (resolve env u') ∧
            network env (Request_of env u') = Some r ∧ ok r = true.
Proof.
  intros Hok Hin Hget Hurl Hhttp.
  assert (Hst : stored (activate v (caches (snd (install v env w)))) name
                  (request_url request)).
  { unfold request_url. rewrite Hurl.
    destruct (install_populates_stored v env w name u Hok Hin) as (r & c & Hc & Hk).
    destruct (activate_filter v) as (keep & Hfilter & Hkeep).
    rewrite Hfilter. exists r, c. split; [|done].
    apply filter_In. split; [done|]. simpl.
    apply Hkeep. by eapply precached_current. }
  apply stored_match in Hst as [r Hr]. exists r.
  split; [done|]. split.
  - apply cache_hit_response; [|done].
    rewrite (intercepts_agree v v1). unfold intercepts.
    rewrite Hget, Hurl, Hhttp. reflexivity.
  - apply caches_match_entry in Hr as [n He]. exists n.
    apply activate_entry in He. by apply install_entry_origin in He.
Qed.

(** ** More on background sync *)

Section SyncMore.

Variable JSON : Type.
Variable JSON_parse : string → option JSON.
Variable JSON_stringify : JSON → string.
Variable truthy : JSON → bool.
Variable length_gt_0 : JSON → bool.

Local Abbreviation sync' :=
  (V1.sync_handler JSON JSON_parse JSON_stringify truthy length_gt_0).
Local Abbreviation queue' := (V1.getSyncQueue JSON JSON_parse).
Local Abbreviation post' := (V1.sync_request JSON JSON_stringify).

(** X18.  The sync handler never touches Cache Storage, and sends at
    most one request: the POST of the stored queue, and only for the tag
    ['sync-progress']. *)
Theorem sync_touches_only_the_queue (env : Env) tag (ls : V1.Storage) w :
  caches (snd (sync' env tag ls w)) = caches w ∧
  (netlog (snd (sync' env tag ls w)) = netlog w ∨
   ∃ q, tag = "sync-progress" ∧ queue' ls = Some q ∧
        netlog (snd (sync' env tag ls w)) = netlog w ++ [post' env q]).
Proof.
  unfold V1.sync_handler, V1.syncProgress.
  destruct (String.eqb tag "sync-progress") eqn:Htag; [|by auto].
  apply String.eqb_eq in Htag.
  unfold mbind, mret, SW_bind, SW_ret, fetch.
  destruct (queue' ls) as [q|]; [|by auto].
  destruct (truthy q && length_gt_0 q); [|by auto].
  destruct (network env (post' env q)) as [resp|];
    [destruct (V1.clearSyncQueue ls)|]; (split; [done|]); right; by exists q.
Qed.

Lemma getSyncQueue_cleared (ls ls' : V1.Storage) :
  V1.clearSyncQueue ls = Some ls' →
  queue' ls' = JSON_parse "[]".
Proof.
  unfold V1.clearSyncQueue, V1.getSyncQueue, V1.getItem_or.
  destruct ls as [st|]; [|done]. intros [= <-].
  by rewrite lookup_insert_eq.
Qed.

(** X19.  Clearing and reading back: where [localStorage] exists,
    [clearSyncQueue] succeeds and [getSyncQueue] then parses ['[]']. *)
Theorem clear_then_read (ls : V1.Storage) :
  ls ≠ None →
  ∃ ls', V1.clearSyncQueue ls = Some ls' ∧ queue' ls' = JSON_parse "[]".
Proof.
  destruct ls as [st|]; [|done]. intros _.
  exists (Some (<["syncQueue" := "[]"]> st)). split; [reflexivity|].
  by apply (getSyncQueue_cleared (Some st)).
Qed.

Lemma sync_changed (env : Env) (ls : V1.Storage) w :
  fst (sync' env "sync-progress" ls w) ≠ ls →
  V1.clearSyncQueue ls = Some (fst (sync' env "sync-progress" ls w)).
Proof.
  unfold V1.sync_handler, V1.syncProgress. cbn [String.eqb Ascii.eqb Bool.eqb].
  unfold mbind, mret, SW_bind, SW_ret, fetch.
  destruct (queue' ls) as [q|]; [|done].
  destruct (truthy q && length_gt_0 q); [|done].
  destruct (network env (post' env q)) as [resp|]; [|done].
  by destruct (V1.clearSyncQueue ls).
Qed.

(** X20.  Where ['[]'] parses to nothing pending, a sync that cleared
    the queue is followed by syncs that change nothing and send nothing:
    no item is POSTed twice. *)
Theorem sync_again_sends_nothing (env env' : Env) tag (ls : V1.Storage) w :
  (∀ q, JSON_parse "[]" = Some q → truthy q && length_gt_0 q = false) →
  fst (sync' env "sync-progress" ls w) ≠ ls →
  sync' env' tag (fst (sync' env "sync-progress" ls w))
                 (snd (sync' env "sync-progress" ls w))
  = sync' env "sync-progress" ls w.
Proof.
  intros Hempty Hchanged.
  pose proof (getSyncQueue_cleared _ _ (sync_changed env ls w Hchanged)) as Hq.
  destruct (sync' env "sync-progress" ls w) as [ls1 w1]. cbn [fst snd] in *.
  unfold V1.sync_handler. destruct (String.eqb tag "sync-progress"); [|done].
  unfold V1.syncProgress. rewrite Hq.
  destruct (JSON_parse "[]") as [q|] eqn:Hp; [|done].
  by rewrite (Hempty q eq_refl).
Qed.

End SyncMore.

(** ** More on the string tests *)

Lemma prefix_spec (p s : string) :
  String.prefix p s = true ↔ ∃ b, s = p +:+ b.
Proof.
  revert s. induction p as [|a p IH]; intros s.
  - rewrite prefix_nil. split; [|done]. intros _. by exists s.
  - destruct s as [|c s].
    + simpl. split; [done|]. by intros [b Hb].
    + rewrite prefix_cons. destruct (Ascii.ascii_dec a c) as [->|Hne].
      * rewrite IH. split; intros [b Hb]; exists b.
        -- by rewrite append_cons, <- Hb.
        -- rewrite append_cons in Hb. by inversion Hb.
      * split; [done|]. intros [b Hb]. rewrite append_cons in Hb.
        inversion Hb. congruence.
Qed.

Lemma includes_nil p : includes "" p = String.prefix p "" || false.
Proof. reflexivity. Qed.

Lemma includes_cons c s p :
  includes (String c s) p = String.prefix p (String c s) || includes s p.
Proof. reflexivity. Qed.

Lemma includes_spec (s p : string) :
  includes s p = true ↔ ∃ a b, s = a +:+ p +:+ b.
Proof.
  split.
  - induction s as [|c s IH].
    + rewrite includes_nil, orb_false_r.
      intros [b Hb]%prefix_spec. by exists "", b.
    + rewrite includes_cons.
      intros [[b Hb]%prefix_spec | (a & b & Hab)%IH]%orb_true_iff.
      * by exists "", b.
      * exists (String c a), b. by rewrite append_cons, <- Hab.
  - intros (a & b & ->). induction a as [|c a IH].
    + rewrite append_nil.
      assert (Hp : String.prefix p (p +:+ b) = true) by (apply prefix_spec; eauto).
      destruct (p +:+ b); by rewrite ?includes_nil, ?includes_cons, Hp.
    + rewrite append_cons, includes_cons, IH. apply orb_true_r.
Qed.

(** X21.  The guard of v3 on [request.url] and the guard of v1 and v2
    on [url.protocol] accept the same requests. *)
Theorem http_guards_coincide (request : Request) :
  startsWith (request_url request) "http" =
  startsWith (protocol (url request)) "http".
Proof. apply startsWith_href. Qed.

(** X22.  v2 takes its CDN branch exactly for the hosts whose name
    contains [jsdelivr], [pypi] or [pyodide] anywhere. *)
Theorem is_cdn_spec (u : URL) :
  V2.is_cdn u = true ↔
  ∃ word a b, In word ["jsdelivr"; "pypi"; "pyodide"] ∧
              hostname u = a +:+ word +:+ b.
Proof.
  unfold V2.is_cdn. rewrite !orb_true_iff, !includes_spec. split.
  - intros [[(a & b & H)|(a & b & H)]|(a & b & H)].
    + exists "jsdelivr", a, b. simpl. auto.
    + exists "pypi", a, b. simpl. auto.
    + exists "pyodide", a, b. simpl. auto.
  - intros (word & a & b & [<-|[<-|[<-|[]]]] & H); eauto.
Qed.

(** ** v1 and the Accept header *)

(** X23.  In v1, when cache and network both fail, the promise given to
    [respondWith] rejects exactly for a request without an Accept header;
    with the header it is fulfilled. *)
Theorem v1_rejects_iff_no_accept env request w :
  intercepts v1 request = true →
  caches_match (caches w) (request_url request) = None →
  network env request = None →
  (fst (fetch_handler v1 env request w) = Some Rejected ↔ accept request = None).
Proof.
  intros H Hmiss Hnet. pass_guards H. rewrite Hmiss, Hnet.
  destruct (accept request) as [a|]; [|done].
  destruct (includes a "text/html"); cbn [fst]; split; discriminate.
Qed.

(** ** The added theorems at concrete inputs *)

(** X2 at v1, online: refreshing the cached lesson page leaves the lookup
    of another URL as it was. *)
Lemma fetch_frame_witness :
  request_url Scenario.data_json ≠ request_url Scenario.lesson_page ∧
  caches_match
    (caches (snd (fetch_handler v1 Scenario.online Scenario.lesson_page
                    Scenario.cached_page)))
    (request_url Scenario.data_json)
  = caches_match (caches Scenario.cached_page) (request_url Scenario.data_json).
Proof.
  assert (Hne : request_url Scenario.data_json ≠ request_url Scenario.lesson_page)
    by (intros H; vm_compute in H; discriminate).
  split; [exact Hne|].
  exact (proj1 (fetch_frame v1 Scenario.online Scenario.lesson_page
                  Scenario.cached_page _ Hne)).
Defined.

(** X3 at v3, online, nothing cached. *)
Lemma fetch_writes_witness :
  entry (caches (snd (fetch_handler v3 Scenario.online Scenario.data_json
                        Scenario.fresh)))
        "ai-learning-v3" (request_url Scenario.data_json)
        (mkResponse true (request_url Scenario.data_json)) ∧
  (entry (caches Scenario.fresh) "ai-learning-v3"
         (request_url Scenario.data_json)
         (mkResponse true (request_url Scenario.data_json)) ∨
   ("ai-learning-v3" = write_cache v3 Scenario.data_json ∧
    request_url Scenario.data_json = request_url Scenario.data_json ∧
    network Scenario.online Scenario.data_json
      = Some (mkResponse true (request_url Scenario.data_json)) ∧
    ok (mkResponse true (request_url Scenario.data_json)) = true)).
Proof.
  assert (He : entry (caches (snd (fetch_handler v3 Scenario.online
                                     Scenario.data_json Scenario.fresh)))
        "ai-learning-v3" (request_url Scenario.data_json)
        (mkResponse true (request_url Scenario.data_json))).
  { eexists. split; [left; reflexivity|]. vm_compute. reflexivity. }
  split; [exact He|].
  exact (fetch_writes v3 Scenario.online Scenario.data_json Scenario.fresh
           _ _ _ He).
Defined.

(** X4 at v2: a local and a CDN request from empty Cache Storage. *)
Lemma fetch_keeps_names_distinct_witness :
  List.NoDup (caches_keys (caches Scenario.fresh)) ∧
  List.NoDup (caches_keys (caches
    (run_fetches v2 [(Scenario.online, Scenario.data_json);
                     (Scenario.online, Scenario.stlite_js);
                     (Scenario.online, Scenario.lesson_page)]
       Scenario.fresh))).
Proof.
  assert (Hnd : List.NoDup (caches_keys (caches Scenario.fresh)))
    by constructor.
  split; [exact Hnd|].
  exact (fetch_keeps_names_distinct v2 _ Scenario.fresh Hnd).
Defined.

(** X5 at v2: fetched online, served offline. *)
Lemma fetched_once_served_again_witness :
  intercepts v2 Scenario.data_json = true ∧
  fst (fetch_handler v2 Scenario.offline Scenario.data_json
         (snd (fetch_handler v2 Scenario.online Scenario.data_json
                 Scenario.fresh)))
  = Some (Fulfilled (Some (mkResponse true (request_url Scenario.data_json)))).
Proof.
  split; [reflexivity|].
  exact (fetched_once_served_again v2 Scenario.online Scenario.offline
           Scenario.data_json Scenario.fresh _ eq_refl eq_refl eq_refl eq_refl).
Defined.

(** X6 at v3: the cached lesson page survives later events, one of them
    for the page itself with the network online. *)
Lemma unrefreshed_entries_stay_witness :
  Forall (λ e, refreshes v3 (snd e) = false)
    [(Scenario.online, Scenario.data_json);
     (Scenario.online, Scenario.lesson_page)] ∧
  caches_match
    (caches (run_fetches v3 [(Scenario.online, Scenario.data_json);
                             (Scenario.online, Scenario.lesson_page)]
               Scenario.cached_page))
    (request_url Scenario.lesson_page) = Some Scenario.index_html.
Proof.
  assert (Hall : Forall (λ e : Env * Request, refreshes v3 (snd e) = false)
    [(Scenario.online, Scenario.data_json);
     (Scenario.online, Scenario.lesson_page)])
    by (repeat constructor).
  split; [exact Hall|].
  exact (unrefreshed_entries_stay v3 _ Scenario.cached_page
           (request_url Scenario.lesson_page) Scenario.index_html Hall eq_refl).
Defined.

(** X7 at v1. *)
Lemma fetch_never_evicts_witness :
  stored (caches Scenario.cached_page) "ai-learning-v2"
    (request_url Scenario.lesson_page) ∧
  stored (caches (run_fetches v1 [(Scenario.online, Scenario.lesson_page);
                                  (Scenario.erring, Scenario.data_json)]
                    Scenario.cached_page))
    "ai-learning-v2" (request_url Scenario.lesson_page).
Proof.
  assert (Hs : stored (caches Scenario.cached_page) "ai-learning-v2"
                 (request_url Scenario.lesson_page)).
  { exists Scenario.index_html. eexists. split; [left; reflexivity|].
    vm_compute. reflexivity. }
  split; [exact Hs|].
  exact (fetch_never_evicts v1 _ Scenario.cached_page _ _ Hs).
Defined.

(** X8 at v1: the page precached in [static-v1] is refreshed into
    [dynamic-v1], and the old copy is still what a lookup finds. *)
Lemma refresh_shadowed_witness :
  "static-v1" ≠ write_cache v1 Scenario.lesson_page ∧
  caches_match
    (caches (snd (fetch_handler v1 Scenario.online Scenario.lesson_page
                    Walkthrough.precached_page)))
    (request_url Scenario.lesson_page) = Some Scenario.index_html.
Proof.
  assert (Hn : "static-v1" ≠ write_cache v1 Scenario.lesson_page)
    by discriminate.
  split; [exact Hn|].
  apply (refresh_shadowed v1 Scenario.online Scenario.lesson_page
           Walkthrough.precached_page [] "static-v1"
           {[request_url Scenario.lesson_page := Scenario.index_html]}
           [("dynamic-v1", ∅)] Scenario.index_html).
  - reflexivity.
  - reflexivity.
  - vm_compute. reflexivity.
  - exact Hn.
  - simpl. tauto.
Defined.

(** X9 at v1: the page held by [dynamic-v1] alone is replaced. *)
Lemma refresh_visible_witness :
  intercepts v1 Scenario.lesson_page = true ∧
  refreshes v1 Scenario.lesson_page = true ∧
  caches_match
    (caches (snd (fetch_handler v1 Scenario.online Scenario.lesson_page
                    Walkthrough.dynamic_page)))
    (request_url Scenario.lesson_page)
  = Some (mkResponse true (request_url Scenario.lesson_page)).
Proof.
  split; [reflexivity|]. split; [reflexivity|].
  apply (refresh_visible v1 Scenario.online Scenario.lesson_page
           Walkthrough.dynamic_page []
           {[request_url Scenario.lesson_page := Scenario.index_html]} []);
    reflexivity.
Defined.

(** X10 at v3, online: the install is fulfilled, so [index.html] was
    served with an ok response. *)
Lemma install_iff_witness :
  fst (install v3 Scenario.online Scenario.fresh) = true ∧
  ∃ resp, network Scenario.online (Request_of Scenario.online "./index.html")
            = Some resp ∧ ok resp = true.
Proof.
  split; [reflexivity|].
  apply (proj1 (install_iff v3 Scenario.online Scenario.fresh) eq_refl
           "ai-learning-v3" "./index.html").
  simpl. auto.
Defined.

(** X12 at v3, offline. *)
Lemma install_rejected_stores_nothing_witness :
  v3 ≠ v2 ∧
  fst (install v3 Scenario.offline Scenario.cached_page) = false ∧
  (entry (caches (snd (install v3 Scenario.offline Scenario.cached_page)))
         "ai-learning-v3" (request_url Walkthrough.index_request)
         Scenario.index_html ↔
   entry (caches Scenario.cached_page)
         "ai-learning-v3" (request_url Walkthrough.index_request)
         Scenario.index_html).
Proof.
  assert (Hv : v3 ≠ v2) by discriminate.
  split; [exact Hv|]. split; [reflexivity|].
  exact (install_rejected_stores_nothing v3 Scenario.offline
           Scenario.cached_page _ _ _ Hv eq_refl).
Defined.

(** X13 with the CDN unreachable: the install is rejected and
    [index.html] is in [ai-learning-v2] all the same. *)
Lemma v2_install_keeps_partial_result_witness :
  fst (V2.install Walkthrough.cdn_down Scenario.fresh) = false ∧
  stored (caches (snd (V2.install Walkthrough.cdn_down Scenario.fresh)))
    V2.CACHE_NAME (href (resolve Walkthrough.cdn_down "/index.html")).
Proof.
  split; [reflexivity|].
  apply (v2_install_keeps_partial_result Walkthrough.cdn_down Scenario.fresh
           "/index.html").
  - intros u' Hin. simpl in Hin.
    repeat (destruct Hin as [<-|Hin]; [eexists; split; reflexivity|]).
    destruct Hin.
  - simpl. auto.
Defined.

(** X14 at v1, online. *)
Lemma install_stores_listed_witness :
  entry (caches (snd (install v1 Scenario.online Scenario.fresh)))
        "static-v1" "https://app.example/manifest.json"
        (mkResponse true "https://app.example/manifest.json") ∧
  (entry (caches Scenario.fresh) "static-v1" "https://app.example/manifest.json"
         (mkResponse true "https://app.example/manifest.json") ∨
   ∃ u, In ("static-v1", u) (precached v1) ∧
        "https://app.example/manifest.json" = href (resolve Scenario.online u) ∧
        network Scenario.online (Request_of Scenario.online u)
          = Some (mkResponse true "https://app.example/manifest.json") ∧
        ok (mkResponse true "https://app.example/manifest.json") = true).
Proof.
  assert (He : entry (caches (snd (install v1 Scenario.online Scenario.fresh)))
        "static-v1" "https://app.example/manifest.json"
        (mkResponse true "https://app.example/manifest.json")).
  { eexists. split; [left; reflexivity|]. vm_compute. reflexivity. }
  split; [exact He|].
  exact (install_stores_listed v1 Scenario.online Scenario.fresh _ _ _ He).
Defined.

(** X16 on the caches other versions left behind. *)
Lemma lifecycle_keeps_names_distinct_witness :
  List.NoDup (caches_keys Scenario.other_versions) ∧
  List.NoDup (caches_keys (activate v2 Scenario.other_versions)).
Proof.
  assert (Hnd : List.NoDup (caches_keys Scenario.other_versions)).
  { repeat constructor; simpl; intros H;
      repeat destruct H as [H|H]; try discriminate; done. }
  split; [exact Hnd|].
  exact (proj2 (lifecycle_keeps_names_distinct v2 Scenario.online
                  {| caches := Scenario.other_versions; netlog := [] |} Hnd)).
Defined.

(** X17 at v3: installed online, then offline, the request for
    [index.html] is answered with the response stored at install. *)
Lemma offline_after_install_witness :
  fst (install v3 Scenario.online Scenario.fresh) = true ∧
  ∃ r,
    caches_match
      (activate v3 (caches (snd (install v3 Scenario.online Scenario.fresh))))
      (request_url Walkthrough.index_request) = Some r ∧
    fst (fetch_handler v3 Scenario.offline Walkthrough.index_request
           {| caches := activate v3
                (caches (snd (install v3 Scenario.online Scenario.fresh)));
              netlog := [] |})
      = Some (Fulfilled (Some r)) ∧
    ∃ n,
      entry (caches Scenario.fresh) n (request_url Walkthrough.index_request) r ∨
      ∃ u', In (n, u') (precached v3) ∧
            request_url Walkthrough.index_request
              = href (resolve Scenario.online u') ∧
            network Scenario.online (Request_of Scenario.online u') = Some r ∧
            ok r = true.
Proof.
  split; [reflexivity|].
  apply (offline_after_install v3 Scenario.online Scenario.offline
           Scenario.fresh [] Walkthrough.index_request
           "ai-learning-v3" "./index.html").
  - reflexivity.
  - simpl. auto.
  - reflexivity.
  - reflexivity.
  - reflexivity.
Defined.

(** X19 where [localStorage] holds ['[1]']. *)
Lemma clear_then_read_witness :
  Scenario.pending ≠ None ∧
  ∃ ls', V1.clearSyncQueue Scenario.pending = Some ls' ∧
         V1.getSyncQueue Json.value Json.parse ls' = Json.parse "[]".
Proof.
  assert (Hls : Scenario.pending ≠ None) by discriminate.
  split; [exact Hls|].
  exact (clear_then_read Json.value Json.parse Scenario.pending Hls).
Defined.

(** X20 where [localStorage] holds ['[1]']: the queue is POSTed and
    cleared online; the next sync event finds nothing to send. *)
Lemma sync_again_sends_nothing_witness :
  (∀ q, Json.parse "[]" = Some q →
        Json.truthy q && Json.length_gt_0 q = false) ∧
  fst (Scenario.run_sync Scenario.online "sync-progress" Scenario.pending
         Scenario.fresh) ≠ Scenario.pending ∧
  Scenario.run_sync Scenario.online "sync-progress"
    (fst (Scenario.run_sync Scenario.online "sync-progress" Scenario.pending
            Scenario.fresh))
    (snd (Scenario.run_sync Scenario.online "sync-progress" Scenario.pending
            Scenario.fresh))
  = Scenario.run_sync Scenario.online "sync-progress" Scenario.pending
      Scenario.fresh.
Proof.
  assert (Hempty : ∀ q, Json.parse "[]" = Some q →
                        Json.truthy q && Json.length_gt_0 q = false).
  { intros q Hq. vm_compute in Hq. injection Hq as <-. reflexivity. }
  assert (Hch : fst (Scenario.run_sync Scenario.online "sync-progress"
                       Scenario.pending Scenario.fresh) ≠ Scenario.pending)
    by (vm_compute; discriminate).
  split; [exact Hempty|]. split; [exact Hch|].
  exact (sync_again_sends_nothing Json.value Json.parse Json.stringify
           Json.truthy Json.length_gt_0 Scenario.online Scenario.online
           "sync-progress" Scenario.pending Scenario.fresh Hempty Hch).
Defined.

(** X22 on the host of the stlite script. *)
Lemma is_cdn_spec_witness :
  hostname (mkURL "https" "cdn.jsdelivr.net" "/npm/x.js")
    = "cdn." +:+ "jsdelivr" +:+ ".net" ∧
  V2.is_cdn (mkURL "https" "cdn.jsdelivr.net" "/npm/x.js") = true.
Proof.
  split; [reflexivity|].
  apply (proj2 (is_cdn_spec (mkURL "https" "cdn.jsdelivr.net" "/npm/x.js"))).
  exists "jsdelivr", "cdn.", ".net". split; [simpl; auto|reflexivity].
Defined.

(** X23: offline, nothing cached, no Accept header. *)
Lemma v1_rejects_iff_no_accept_witness :
  intercepts v1 Walkthrough.bare_page = true ∧
  accept Walkthrough.bare_page = None ∧
  fst (fetch_handler v1 Scenario.offline Walkthrough.bare_page Scenario.fresh)
    = Some Rejected.
Proof.
  split; [reflexivity|]. split; [reflexivity|].
  exact (proj2 (v1_rejects_iff_no_accept Scenario.offline Walkthrough.bare_page
                  Scenario.fresh eq_refl eq_refl eq_refl) eq_refl).
Defined.
